(** * Order and employee repositories: a shallow embedding

    The development follows [src/data/orders.js] and the employee
    repository.  Every exported function sends parameterised SQL to a
    database handle obtained from [getDb] and returns what the handle
    answers.  The embedding has two layers:

    - the JavaScript layer (option merging, truthiness tests, template
      literals, [try]/[catch], [Promise.all]) is translated function by
      function;
    - each SQL text is translated into the relational operation it
      denotes over tables kept as lists of rows in insertion order.

    JavaScript numbers are modelled by [Z]: ids, page numbers and
    counters are integers in the range where the arithmetic of the
    language is exact. *)

From Stdlib Require Import ZArith QArith Ascii String List Bool Lia DecimalString Sorted.
From Stdlib Require DecimalZ DecimalFacts.
Import ListNotations.

Open Scope string_scope.
Open Scope list_scope.
Open Scope Z_scope.

(* ================================================================== *)
(** ** JavaScript values *)

Module Js.

Inductive value : Type :=
| undefined
| null
| boolean (b : bool)
| number (z : Z)
| str (s : string).

(** [if (v)] and [!v]: the values that count as true. *)
Definition truthy (v : value) : bool :=
  match v with
  | undefined | null => false
  | boolean b => b
  | number z => negb (z =? 0)
  | str s => negb (s =? "")%string
  end.

(** What a template literal [`${v}`] splices in. *)
Definition ToString (v : value) : string :=
  match v with
  | undefined => "undefined"
  | null => "null"
  | boolean true => "true"
  | boolean false => "false"
  | number z => NilZero.string_of_int (Z.to_int z)
  | str s => s
  end.

(** Thrown values.  [new Error(message)] and the rejections of the
    driver are both carried as their message. *)
Inductive error : Type :=
| Error (message : string).

End Js.

(* ================================================================== *)
(** ** Statements sent through [db.run] *)

(** The SQL texts of the writing statements, one constructor per text. *)
Inductive template : Type :=
| BEGIN
| COMMIT
| ROLLBACK
| INSERT_CustomerOrder
| INSERT_OrderDetail
| DELETE_CustomerOrder
| UPDATE_CustomerOrder
| UPDATE_OrderDetail.

(** A call [db.run(text, ...params)]: the text and the values bound to
    [$1], [$2], ... in that order. *)
Record stmt : Type := Run { text : template; params : list Js.value }.

Definition is_rollback (s : stmt) : bool :=
  match text s with ROLLBACK => true | _ => false end.

Definition is_detail_insert (s : stmt) : bool :=
  match text s with INSERT_OrderDetail => true | _ => false end.

(** What [db.run] resolves with; only [lastID] is read by the code. *)
Record RunResult : Type := { lastID : Js.value }.

(** A settled promise. *)
Inductive outcome (A : Type) : Type :=
| Resolved (a : A)
| Rejected (e : Js.error).
Arguments Resolved {A} a.
Arguments Rejected {A} e.

(** The argument records of the writing functions.  Fields are read
    with [order.employeeid] and the like, so each one is any value. *)
Record Order : Type := {
  employeeid : Js.value;
  customerid : Js.value;
  shipcity : Js.value;
  shipaddress : Js.value;
  shipname : Js.value;
  shipvia : Js.value;
  shipregion : Js.value;
  shipcountry : Js.value;
  shippostalcode : Js.value;
  requireddate : Js.value;
  freight : Js.value
}.

(** The [data] object of [updateOrder]: the header fields it is read
    for and, besides them, the [id] property it may carry of its own,
    which [{ id, ...data }] copies like any other property. *)
Record UpdateData : Type := {
  header :> Order;
  own_id : option Js.value
}.

(** A header object with no [id] of its own, as its type describes it. *)
Definition without_id (o : Order) : UpdateData :=
  {| header := o; own_id := None |}.
#[warnings="-ambiguous-paths"]
Coercion without_id : Order >-> UpdateData.

Record OrderDetail : Type := {
  id : Js.value;
  productid : Js.value;
  unitprice : Js.value;
  quantity : Js.value;
  discount : Js.value
}.

(** The error thrown when the header insert reports no id. *)
Definition InsertionError : Js.error :=
  Js.Error "Order insertion did not return an id".

(** [!result || !result.lastID] *)
Definition no_generated_id (result : option RunResult) : bool :=
  match result with
  | None => true
  | Some r => negb (Js.truthy (lastID r))
  end.

(** [result.lastID] *)
Definition lastID_of (result : option RunResult) : Js.value :=
  match result with
  | Some r => lastID r
  | None => Js.undefined
  end.

(* ================================================================== *)
(** ** The transactional operations, over any database handle *)

Section Transactions.

(** The handle that [getDb] resolves with: the state of the connection
    and how [run] answers a statement in that state.  Statements of
    one connection are serialised by the driver, so they take effect
    and settle in the order in which they were dispatched. *)
Variable Conn : Type.
Variable run : stmt -> Conn -> outcome (option RunResult) * Conn.

(** The connection together with the statements dispatched so far. *)
Definition world : Type := (Conn * list stmt)%type.

Definition Async (A : Type) : Type := world -> outcome A * world.

Definition ret {A} (a : A) : Async A := fun w => (Resolved a, w).

Definition throw {A} (e : Js.error) : Async A := fun w => (Rejected e, w).

Definition bind {A B} (m : Async A) (k : A -> Async B) : Async B :=
  fun w =>
    match m w with
    | (Resolved a, w') => k a w'
    | (Rejected e, w') => (Rejected e, w')
    end.

Definition try_catch {A} (body : Async A) (handler : Js.error -> Async A)
  : Async A :=
  fun w =>
    match body w with
    | (Resolved a, w') => (Resolved a, w')
    | (Rejected e, w') => handler e w'
    end.

Notation "x <- m ;; k" := (bind m (fun x => k))
  (at level 61, m at next level, right associativity).
Notation "m ;;; k" := (bind m (fun _ => k))
  (at level 61, right associativity).

(** Calling [db.run] dispatches the statement and hands back a
    promise; the promise is represented by its eventual outcome. *)
Definition dispatch (s : stmt) : Async (outcome (option RunResult)) :=
  fun w =>
    let '(c, log) := w in
    let '(r, c') := run s c in
    (Resolved r, (c', log ++ [s])).

Definition await {A} (p : outcome A) : Async A := fun w => (p, w).

(** [await db.run(...)] *)
Definition db_run (s : stmt) : Async (option RunResult) :=
  p <- dispatch s ;; await p.

(** [Promise.all]: rejects with the first rejection, otherwise
    resolves with every value. *)
Fixpoint Promise_all {A} (ps : list (outcome A)) : outcome (list A) :=
  match ps with
  | [] => Resolved []
  | Rejected e :: _ => Rejected e
  | Resolved a :: ps' =>
      match Promise_all ps' with
      | Resolved l => Resolved (a :: l)
      | Rejected e => Rejected e
      end
  end.

Definition insert_order (order : Order) : stmt :=
  Run INSERT_CustomerOrder
      [ employeeid order; customerid order; shipcity order;
        shipaddress order; shipvia order; shipregion order;
        shipname order; shipcountry order; shippostalcode order;
        requireddate order; freight order ].

(** The detail insert of [createOrder]; [count] is the value that
    [orderDetailsCount++] yields. *)
Definition insert_detail (orderid : Js.value) (count : Z)
           (detail : OrderDetail) : stmt :=
  Run INSERT_OrderDetail
      [ Js.str (Js.ToString orderid ++ "/" ++ Js.ToString (Js.number count))%string;
        orderid; productid detail; unitprice detail; quantity detail;
        discount detail ].

(** [details.map(detail => db.run(..., `${orderid}/${orderDetailsCount++}`, ...))]:
    the callback runs for each entry in order, dispatching its
    statement and advancing the counter. *)
Fixpoint map_insert_details (orderid : Js.value) (orderDetailsCount : Z)
         (details : list OrderDetail)
  : Async (list (outcome (option RunResult))) :=
  match details with
  | [] => ret []
  | detail :: rest =>
      p <- dispatch (insert_detail orderid orderDetailsCount detail) ;;
      ps <- map_insert_details orderid (orderDetailsCount + 1) rest ;;
      ret (p :: ps)
  end.

(** The [try] block of [createOrder]. *)
Definition createOrder_try (order : Order) (details : list OrderDetail)
  : Async Js.value :=
  result <- db_run (insert_order order) ;;
  if no_generated_id result then throw InsertionError
  else
    let orderid := lastID_of result in
    orderDetailPromises <- map_insert_details orderid 1 details ;;
    await (Promise_all orderDetailPromises) ;;;
    db_run (Run COMMIT []) ;;;
    ret orderid.

(** [createOrder(order, details)]; resolves with the [id] of the
    object [{ id: orderid }]. *)
Definition createOrder (order : Order) (details : list OrderDetail)
  : Async Js.value :=
  db_run (Run BEGIN []) ;;;
  try_catch (createOrder_try order details)
            (fun e => db_run (Run ROLLBACK []) ;;; throw e).

Definition update_order (id : Js.value) (data : Order) : stmt :=
  Run UPDATE_CustomerOrder
      [ employeeid data; customerid data; shipcity data;
        shipaddress data; shipname data; shipvia data;
        shipregion data; shipcountry data; shippostalcode data;
        requireddate data; freight data; id ].

Definition update_detail (detail : OrderDetail) : stmt :=
  Run UPDATE_OrderDetail
      [ productid detail; unitprice detail; quantity detail;
        discount detail; id detail ].

(** [details.map(detail => db.run(...))] of [updateOrder]. *)
Fixpoint map_update_details (details : list OrderDetail)
  : Async (list (outcome (option RunResult))) :=
  match details with
  | [] => ret []
  | detail :: rest =>
      p <- dispatch (update_detail detail) ;;
      ps <- map_update_details rest ;;
      ret (p :: ps)
  end.

(** The [id] of the object [{ id, ...data }]: the properties of
    [data] are copied after [id], so an [id] among them replaces the
    argument. *)
Definition spread_id (id : Js.value) (data : UpdateData) : Js.value :=
  match own_id data with
  | Some v => v
  | None => id
  end.

(** The [try] block of [updateOrder]; it resolves with the object
    [{ id, ...data }], given by its [id] and the header fields. *)
Definition updateOrder_try (id : Js.value) (data : UpdateData)
           (details : list OrderDetail) : Async (Js.value * Order) :=
  db_run (update_order id data) ;;;
  orderDetailPromises <- map_update_details details ;;
  await (Promise_all orderDetailPromises) ;;;
  db_run (Run COMMIT []) ;;;
  ret (spread_id id data, header data).

(** [updateOrder(id, data, details)]; resolves with [{ id, ...data }]. *)
Definition updateOrder (id : Js.value) (data : UpdateData)
           (details : list OrderDetail) : Async (Js.value * Order) :=
  db_run (Run BEGIN []) ;;;
  try_catch (updateOrder_try id data details)
            (fun e => db_run (Run ROLLBACK []) ;;; throw e).

(** The statements an operation dispatched, oldest first. *)
Definition trace {A} (r : outcome A * world) : list stmt := snd (snd r).

Definition result {A} (r : outcome A * world) : outcome A := fst r.

End Transactions.

Arguments ret {Conn A} a w.
Arguments throw {Conn A} e w.
Arguments bind {Conn A B} m k w.
Arguments try_catch {Conn A} body handler w.
Arguments dispatch {Conn} run s w.
Arguments await {Conn A} p w.
Arguments db_run {Conn} run s w.
Arguments map_insert_details {Conn} run orderid orderDetailsCount details w.
Arguments createOrder_try {Conn} run order details w.
Arguments createOrder {Conn} run order details w.
Arguments map_update_details {Conn} run details w.
Arguments updateOrder_try {Conn} run id data details w.
Arguments updateOrder {Conn} run id data details w.
Arguments trace {Conn A} r.
Arguments result {Conn A} r.

(** The detail inserts of one [createOrder] call, counter starting at
    [count]. *)
Fixpoint detail_inserts (orderid : Js.value) (count : Z)
         (details : list OrderDetail) : list stmt :=
  match details with
  | [] => []
  | detail :: rest =>
      insert_detail orderid count detail :: detail_inserts orderid (count + 1) rest
  end.

(** The synthesized id ["<orderid>/<k>"]. *)
Definition detail_id (orderid : Js.value) (k : nat) : Js.value :=
  Js.str (Js.ToString orderid ++ "/" ++ Js.ToString (Js.number (Z.of_nat k)))%string.

(** The value a statement binds to [$1]. *)
Definition first_param (s : stmt) : option Js.value := hd_error (params s).

Section Serialised.

Variable Conn : Type.
Variable run : stmt -> Conn -> outcome (option RunResult) * Conn.

(** The answers to a batch of statements taken in dispatch order. *)
Fixpoint run_all (ss : list stmt) (c : Conn)
  : list (outcome (option RunResult)) * Conn :=
  match ss with
  | [] => ([], c)
  | s :: rest =>
      let '(a, c') := run s c in
      let '(answers, c'') := run_all rest c' in
      (a :: answers, c'')
  end.

End Serialised.

Arguments run_all {Conn} run ss c.

(* ================================================================== *)
(** ** The relational side: values, tables, operators *)

Module Sql.

(** Stored values.  Numbers are kept exact. *)
Inductive value : Type :=
| NULL
| Num (q : Q)
| Text (s : string).

Definition Int (z : Z) : value := Num (inject_Z z).

(** [a = b] in a [WHERE] or [ON] clause: not true as soon as one side
    is [NULL]. *)
Definition eqb (a b : value) : bool :=
  match a, b with
  | Num x, Num y => Qeq_bool x y
  | Text s, Text t => (s =? t)%string
  | _, _ => false
  end.

(** Falling in the same group of a [GROUP BY]: as [eqb], and [NULL]
    with [NULL]. *)
Definition same (a b : value) : bool :=
  match a, b with
  | NULL, NULL => true
  | _, _ => eqb a b
  end.

(** The order of [ORDER BY]: [NULL] first, then numbers, then text
    byte by byte. *)
Definition compare (a b : value) : comparison :=
  match a, b with
  | NULL, NULL => Eq
  | NULL, _ => Lt
  | _, NULL => Gt
  | Num x, Num y => Qcompare x y
  | Num _, Text _ => Lt
  | Text _, Num _ => Gt
  | Text s, Text t => String.compare s t
  end.

(** Modelled from the spec: the schema, which is created outside these
    files.  The tables and their columns are those of section 3 (Data
    model); quantities of a line item are numbers, display names are
    text, and every other column holds any value. *)

(** Modelled from the spec: the table [Customer]. *)
Record CustomerRow : Type := {
  c_id : value;
  c_contactname : string
}.

(** Modelled from the spec: the table [Employee]. *)
Record EmployeeRow : Type := {
  e_id : value;
  e_firstname : string;
  e_lastname : string;
  e_region : value;
  e_hiredate : value;
  e_title : value;
  e_reportsto : value
}.

(** Modelled from the spec: the table [CustomerOrder]. *)
Record CustomerOrderRow : Type := {
  o_id : value;
  o_customerid : value;
  o_employeeid : value;
  o_shipcity : value;
  o_shipaddress : value;
  o_shipname : value;
  o_shipvia : value;
  o_shipregion : value;
  o_shipcountry : value;
  o_shippostalcode : value;
  o_shippeddate : value;
  o_requireddate : value;
  o_freight : value
}.

(** Modelled from the spec: the table [OrderDetail]. *)
Record OrderDetailRow : Type := {
  d_id : value;
  d_orderid : value;
  d_productid : value;
  d_unitprice : Q;
  d_quantity : Q;
  d_discount : Q
}.

(** Modelled from the spec: the table [Product]. *)
Record ProductRow : Type := {
  p_id : value;
  p_productname : string
}.

(** The database: each table lists its rows in insertion order, which
    is the order in which a scan without [ORDER BY] visits them. *)
Record Database : Type := {
  Customer : list CustomerRow;
  Employee : list EmployeeRow;
  CustomerOrder : list CustomerOrderRow;
  OrderDetail : list OrderDetailRow;
  Product : list ProductRow
}.

Section Operators.

Context {A B : Type}.

(** [l LEFT JOIN r ON on]: every match of a left row, or the left
    row alone when it has none. *)
Definition left_join (on : A -> B -> bool) (l : list A) (r : list B)
  : list (A * option B) :=
  flat_map (fun a =>
              match filter (on a) r with
              | [] => [(a, None)]
              | matches => map (fun b => (a, Some b)) matches
              end) l.

(** [l INNER JOIN r ON on] *)
Definition inner_join (on : A -> B -> bool) (l : list A) (r : list B)
  : list (A * B) :=
  flat_map (fun a => map (fun b => (a, b)) (filter (on a) r)) l.

(** One step of [GROUP BY]: the row joins the group of its key, or
    opens a new group after the existing ones. *)
Fixpoint group_insert (key : A -> value) (a : A)
         (groups : list (value * list A)) : list (value * list A) :=
  match groups with
  | [] => [(key a, [a])]
  | (k, g) :: rest =>
      if same k (key a) then (k, g ++ [a]) :: rest
      else (k, g) :: group_insert key a rest
  end.

Definition group_by (key : A -> value) (l : list A)
  : list (value * list A) :=
  fold_left (fun groups a => group_insert key a groups) l [].

(** [ORDER BY]: a stable insertion sort. *)
Fixpoint insert_sorted (le : A -> A -> bool) (a : A) (l : list A) : list A :=
  match l with
  | [] => [a]
  | b :: rest => if le a b then a :: l else b :: insert_sorted le a rest
  end.

Definition order_by (le : A -> A -> bool) (l : list A) : list A :=
  fold_right (insert_sorted le) [] l.

(** [LIMIT limit OFFSET offset]: a negative offset counts as zero
    and a negative limit as no limit. *)
Definition limit_offset (limit offset : Z) (l : list A) : list A :=
  let rest := skipn (Z.to_nat offset) l in
  if limit <? 0 then rest else firstn (Z.to_nat limit) rest.

End Operators.

(** [sum(...)] over the rows of a group: [NULL] when there is none. *)
Definition sum (l : list Q) : option Q :=
  match l with
  | [] => None
  | _ => Some (fold_left Qplus l 0%Q)
  end.

(** [count(x)]: the rows where [x] is not [NULL]. *)
Definition count (l : list value) : Z :=
  Z.of_nat (length (filter (fun v => match v with NULL => false | _ => true end) l)).

(** A scalar subquery: the value of the first row, [NULL] without
    rows. *)
Definition scalar {T} (rows : list (option T)) : option T :=
  match rows with
  | [] => None
  | v :: _ => v
  end.

(** Modelled from the spec: [db.get] of the handle (section 6), the
    first row of the result or nothing. *)
Definition get {T} (rows : list T) : option T := hd_error rows.

(** No two of the keys are equal: what a primary key guarantees. *)
Fixpoint unique_keys (ks : list value) : bool :=
  match ks with
  | [] => true
  | k :: rest => negb (existsb (eqb k) rest) && unique_keys rest
  end.

End Sql.

(* ================================================================== *)
(** ** Listing orders *)

Inductive direction : Type := asc | desc.

(** OrderCollectionOptions *)
Record OrderCollectionOptions : Type := {
  order : direction;
  page : Z;
  perPage : Z;
  sort : string
}.

(** Partial<OrderCollectionOptions>: the properties that are present. *)
Module Partial.
Record t : Type := {
  order : option direction;
  page : option Z;
  perPage : option Z;
  sort : option string
}.
Definition empty : t :=
  {| order := None; page := None; perPage := None; sort := None |}.
End Partial.

Definition DEFAULT_ORDER_COLLECTION_OPTIONS : OrderCollectionOptions :=
  {| order := asc; page := 1; perPage := 20; sort := "id" |}.

Definition DEFAULT_CUSTOMER_ORDER_COLLECTION_OPTIONS : OrderCollectionOptions :=
  {| order := asc; page := 1; perPage := 20; sort := "shippeddate" |}.

(** [{ ...defaults, ...opts }] *)
Definition spread (defaults : OrderCollectionOptions) (opts : Partial.t)
  : OrderCollectionOptions :=
  {| order := match Partial.order opts with Some v => v | None => order defaults end;
     page := match Partial.page opts with Some v => v | None => page defaults end;
     perPage := match Partial.perPage opts with Some v => v | None => perPage defaults end;
     sort := match Partial.sort opts with Some v => v | None => sort defaults end |}.

(** A full options object passed where a partial one is expected. *)
Definition as_partial (o : OrderCollectionOptions) : Partial.t :=
  {| Partial.order := Some (order o); Partial.page := Some (page o);
     Partial.perPage := Some (perPage o); Partial.sort := Some (sort o) |}.

(** The [whereClause] variable: empty, or
    [WHERE o.customerId = '<literal>'] with the literal spliced between
    the quotes as it is (read below as a literal free of quotes). *)
Inductive where_clause : Type :=
| NoWhere
| WhereCustomerId (literal : string).

(** The listing statement with its five interpolated places.  The
    [sql] tag splices interpolated values into the text as they are
    (section 6 of the specification); only [$n] places are bound. *)
Record select_orders : Type := {
  whereClause : where_clause;
  order_by_column : string;
  order_by_direction : direction;
  limit : Z;
  offset : Z
}.

Definition ALL_ORDERS_COLUMNS : list string :=
  ["id"; "customerid"; "employeeid"; "shipcity"; "shipcountry"; "shippeddate"].

(** What [getAllOrders] selects: the six columns of
    [ALL_ORDERS_COLUMNS], [customername] and [employeename]. *)
Record OrderListing : Type := {
  l_id : Sql.value;
  l_customerid : Sql.value;
  l_employeeid : Sql.value;
  l_shipcity : Sql.value;
  l_shipcountry : Sql.value;
  l_shippeddate : Sql.value;
  l_customername : option string;
  l_employeename : option string
}.

(** Column names are read without regard to the case of their letters. *)
Definition lower (c : ascii) : ascii :=
  let n := nat_of_ascii c in
  if ((65 <=? n) && (n <=? 90))%nat then ascii_of_nat (n + 32) else c.

Fixpoint lowercase (s : string) : string :=
  match s with
  | EmptyString => EmptyString
  | String c rest => String (lower c) (lowercase rest)
  end.

(** [o.<name>] for a column of [CustomerOrder]. *)
Definition column (name : string) : option (Sql.CustomerOrderRow -> Sql.value) :=
  let name := lowercase name in
  if (name =? "id")%string then Some Sql.o_id
  else if (name =? "customerid")%string then Some Sql.o_customerid
  else if (name =? "employeeid")%string then Some Sql.o_employeeid
  else if (name =? "shipcity")%string then Some Sql.o_shipcity
  else if (name =? "shipaddress")%string then Some Sql.o_shipaddress
  else if (name =? "shipname")%string then Some Sql.o_shipname
  else if (name =? "shipvia")%string then Some Sql.o_shipvia
  else if (name =? "shipregion")%string then Some Sql.o_shipregion
  else if (name =? "shipcountry")%string then Some Sql.o_shipcountry
  else if (name =? "shippostalcode")%string then Some Sql.o_shippostalcode
  else if (name =? "shippeddate")%string then Some Sql.o_shippeddate
  else if (name =? "requireddate")%string then Some Sql.o_requireddate
  else if (name =? "freight")%string then Some Sql.o_freight
  else None.

(** [x ORDER BY ... asc] puts [a] no later than [b]; [desc] the other
    way round. *)
Definition in_order (d : direction) (a b : Sql.value) : bool :=
  match d, Sql.compare a b with
  | asc, Gt => false
  | desc, Lt => false
  | _, _ => true
  end.

(** [FROM CustomerOrder AS o LEFT JOIN Customer AS c ON o.customerid = c.id
     LEFT JOIN Employee AS e ON o.employeeid = e.id] *)
Definition orders_joined (db : Sql.Database)
  : list (Sql.CustomerOrderRow * option Sql.CustomerRow * option Sql.EmployeeRow) :=
  Sql.left_join
    (fun oc e => Sql.eqb (Sql.o_employeeid (fst oc)) (Sql.e_id e))
    (Sql.left_join (fun o c => Sql.eqb (Sql.o_customerid o) (Sql.c_id c))
                   (Sql.CustomerOrder db) (Sql.Customer db))
    (Sql.Employee db).

(** [c.contactname AS customername] *)
Definition customername (c : option Sql.CustomerRow) : option string :=
  match c with
  | Some c => Some (Sql.c_contactname c)
  | None => None
  end.

(** [e.firstname || ' ' || e.lastname AS employeename] *)
Definition employeename (e : option Sql.EmployeeRow) : option string :=
  match e with
  | Some e => Some (Sql.e_firstname e ++ " " ++ Sql.e_lastname e)%string
  | None => None
  end.

Definition listing_row
           (r : Sql.CustomerOrderRow * option Sql.CustomerRow * option Sql.EmployeeRow)
  : OrderListing :=
  let '(o, c, e) := r in
  {| l_id := Sql.o_id o;
     l_customerid := Sql.o_customerid o;
     l_employeeid := Sql.o_employeeid o;
     l_shipcity := Sql.o_shipcity o;
     l_shipcountry := Sql.o_shipcountry o;
     l_shippeddate := Sql.o_shippeddate o;
     l_customername := customername c;
     l_employeename := employeename e |}.

(** The listing statement up to and including its [ORDER BY], for a
    sort text that is a column name (a name that is no column of the
    table is refused by the engine) and a customer literal that stays
    between its quotes.  The properties below that speak of the rows
    say so in their hypotheses. *)
Definition ordered_rows (q : select_orders) (db : Sql.Database)
  : outcome (list OrderListing) :=
  match column (order_by_column q) with
  | None =>
      Rejected (Js.Error ("SQLITE_ERROR: no such column: o." ++ order_by_column q))
  | Some col =>
      let selected :=
        match whereClause q with
        | NoWhere => orders_joined db
        | WhereCustomerId literal =>
            filter (fun r => Sql.eqb (Sql.o_customerid (fst (fst r))) (Sql.Text literal))
                   (orders_joined db)
        end in
      let sorted :=
        Sql.order_by (fun a b => in_order (order_by_direction q)
                                          (col (fst (fst a))) (col (fst (fst b))))
                     selected in
      Resolved (map listing_row sorted)
  end.

(** A sort text may leave its place in the statement.  One such shape
    is read here: a name followed by an unclosed comment opener. *)
Definition is_blank (c : ascii) : bool :=
  (c =? " ")%char || (c =? "009")%char || (c =? "010")%char || (c =? "013")%char.

Definition is_name_char (c : ascii) : bool :=
  let n := nat_of_ascii c in
  ((97 <=? n) && (n <=? 122) || (65 <=? n) && (n <=? 90)
   || (48 <=? n) && (n <=? 57) || (n =? 95))%nat.

(** The letters, digits and underscores a text starts with, and the
    rest of it. *)
Fixpoint split_name (s : string) : string * string :=
  match s with
  | EmptyString => (EmptyString, EmptyString)
  | String c rest =>
      if is_name_char c
      then let (name, after) := split_name rest in (String c name, after)
      else (EmptyString, s)
  end.

Fixpoint skip_blanks (s : string) : string :=
  match s with
  | String c rest => if is_blank c then skip_blanks rest else s
  | EmptyString => EmptyString
  end.

(** [name /*]: the name, when the text is a name, blanks, and the two
    characters that open a comment.  Nothing closes the comment in what
    the statement goes on with (a direction and two numbers), so the
    engine takes all of it, to the end of the statement, as comment. *)
Definition comment_opener (s : string) : option string :=
  let (name, after) := split_name s in
  if (skip_blanks after =? "/*")%string then Some name else None.

(** [db.all] on the listing statement.  With a sort text of the shape
    above, the statement ends at [ORDER BY o.<name>]: ascending order,
    and neither [LIMIT] nor [OFFSET]. *)
Definition all_orders (q : select_orders) (db : Sql.Database)
  : outcome (list OrderListing) :=
  match ordered_rows q db with
  | Resolved rows => Resolved (Sql.limit_offset (limit q) (offset q) rows)
  | Rejected e =>
      match comment_opener (order_by_column q) with
      | Some name =>
          ordered_rows {| whereClause := whereClause q;
                          order_by_column := name;
                          order_by_direction := asc;
                          limit := limit q;
                          offset := offset q |} db
      | None => Rejected e
      end
  end.

(** The statement that [getAllOrders(opts, customerId)] builds.  The
    numbers are the integers that the options hold; the code computes
    the offset in floating point and prints it into the text, which
    gives the same integer as long as the numbers are within
    [MAX_SAFE_INTEGER] (see [exact_numbers]). *)
Definition getAllOrders_statement (opts : Partial.t) (customerId : Js.value)
  : select_orders :=
  let options := spread DEFAULT_ORDER_COLLECTION_OPTIONS opts in
  let whereClause :=
    if Js.truthy customerId
    then WhereCustomerId (Js.ToString customerId)
    else NoWhere in
  {| whereClause := whereClause;
     order_by_column := sort options;
     order_by_direction := order options;
     limit := perPage options;
     offset := (page options - 1) * perPage options |}.

Definition getAllOrders (opts : Partial.t) (customerId : Js.value)
           (db : Sql.Database) : outcome (list OrderListing) :=
  all_orders (getAllOrders_statement opts customerId) db.

Definition getCustomerOrders (customerId : Js.value) (opts : Partial.t)
           (db : Sql.Database) : outcome (list OrderListing) :=
  let options := spread DEFAULT_CUSTOMER_ORDER_COLLECTION_OPTIONS opts in
  getAllOrders (as_partial options) customerId db.

(** The options [opts] with [page] and [perPage] given. *)
Definition page_of (opts : Partial.t) (p n : Z) : Partial.t :=
  {| Partial.order := Partial.order opts;
     Partial.page := Some p;
     Partial.perPage := Some n;
     Partial.sort := Partial.sort opts |}.

(* ================================================================== *)
(** ** One order, its line items, deletion *)

(** An order id is the integer row id that the engine generated for the
    order (the [lastID] of the header insert).  Bound as [$1] or spliced
    into the text as [${id}], it denotes the same number; its decimal
    text, which callers may pass instead, is converted by the engine on
    comparison with the integer column and is not told apart here. *)
Definition order_id (id : Z) : Sql.value := Sql.Int id.

(** The row that [getOrder] selects. *)
Record OrderRecord : Type := {
  r_id : Sql.value;
  r_customerid : Sql.value;
  r_employeeid : Sql.value;
  r_customername : option string;
  r_employeename : option string;
  r_subtotal : option Q
}.

(** [c.id AS customerid] *)
Definition joined_customer_id (c : option Sql.CustomerRow) : Sql.value :=
  match c with
  | Some c => Sql.c_id c
  | None => Sql.NULL
  end.

(** [e.id AS employeeid] *)
Definition joined_employee_id (e : option Sql.EmployeeRow) : Sql.value :=
  match e with
  | Some e => Sql.e_id e
  | None => Sql.NULL
  end.

(** [(SELECT sum(unitprice * quantity * (1 - discount))
      FROM OrderDetail WHERE orderid = ${id} GROUP BY orderid)] *)
Definition subtotal_subquery (id : Z) (db : Sql.Database) : option Q :=
  let rows :=
    filter (fun d => Sql.eqb (Sql.d_orderid d) (order_id id)) (Sql.OrderDetail db) in
  let groups := Sql.group_by Sql.d_orderid rows in
  Sql.scalar
    (map (fun g =>
            Sql.sum (map (fun d => (Sql.d_unitprice d * Sql.d_quantity d
                                    * (1 - Sql.d_discount d))%Q)
                         (snd g)))
         groups).

Definition getOrder (id : Z) (db : Sql.Database) : option OrderRecord :=
  Sql.get
    (map (fun r : Sql.CustomerOrderRow * option Sql.CustomerRow * option Sql.EmployeeRow =>
            let '(o, c, e) := r in
            {| r_id := Sql.o_id o;
               r_customerid := joined_customer_id c;
               r_employeeid := joined_employee_id e;
               r_customername := customername c;
               r_employeename := employeename e;
               r_subtotal := subtotal_subquery id db |})
         (filter (fun r => Sql.eqb (Sql.o_id (fst (fst r))) (order_id id))
                 (orders_joined db))).

(** The row that [getOrderDetails] selects. *)
Record OrderDetailRecord : Type := {
  i_id : Sql.value;
  i_price : Q;
  i_productname : option string;
  i_unitprice : Q;
  i_quantity : Q;
  i_discount : Q
}.

(** [p.productname] *)
Definition productname (p : option Sql.ProductRow) : option string :=
  match p with
  | Some p => Some (Sql.p_productname p)
  | None => None
  end.

Definition detail_record (r : Sql.OrderDetailRow * option Sql.ProductRow)
  : OrderDetailRecord :=
  let '(o, p) := r in
  {| i_id := Sql.d_id o;
     i_price := (Sql.d_unitprice o * Sql.d_quantity o)%Q;
     i_productname := productname p;
     i_unitprice := Sql.d_unitprice o;
     i_quantity := Sql.d_quantity o;
     i_discount := Sql.d_discount o |}.

Definition getOrderDetails (id : Z) (db : Sql.Database) : list OrderDetailRecord :=
  map detail_record
      (filter (fun r => Sql.eqb (Sql.d_orderid (fst r)) (order_id id))
              (Sql.left_join (fun o p => Sql.eqb (Sql.d_productid o) (Sql.p_id p))
                             (Sql.OrderDetail db) (Sql.Product db))).

(** [getOrderWithDetails(id)] awaits two queries, one after the other
    and outside any transaction: [db] is the database as the first
    query finds it and [db'] as the second one does. *)
Definition getOrderWithDetails (id : Z) (db db' : Sql.Database)
  : option OrderRecord * list OrderDetailRecord :=
  let order := getOrder id db in
  let items := getOrderDetails id db' in
  (order, items).

(** [DELETE FROM CustomerOrder WHERE id = $1]: the rows it removes and
    the database it leaves. *)
Definition delete_CustomerOrder (id : Sql.value) (db : Sql.Database)
  : Z * Sql.Database :=
  (Z.of_nat (length (filter (fun o => Sql.eqb (Sql.o_id o) id) (Sql.CustomerOrder db))),
   {| Sql.Customer := Sql.Customer db;
      Sql.Employee := Sql.Employee db;
      Sql.CustomerOrder :=
        filter (fun o => negb (Sql.eqb (Sql.o_id o) id)) (Sql.CustomerOrder db);
      Sql.OrderDetail := Sql.OrderDetail db;
      Sql.Product := Sql.Product db |}).

(** [deleteOrder(id)]: the number of rows changed, and the database
    afterwards. *)
Definition deleteOrder (id : Z) (db : Sql.Database) : Z * Sql.Database :=
  delete_CustomerOrder (order_id id) db.

(* ================================================================== *)
(** ** Employees *)

Definition ALL_EMPLOYEES_COLUMNS : list string :=
  ["id"; "firstname"; "lastname"; "region"; "hiredate"; "title"; "reportsto"].

(** The row of [getAllEmployees]: the seven columns of
    [ALL_EMPLOYEES_COLUMNS], which are the whole employee row, and
    [ordercount]. *)
Record EmployeeRecord : Type := {
  employee : Sql.EmployeeRow;
  ordercount : Z
}.

Definition getAllEmployees (db : Sql.Database) : list EmployeeRecord :=
  let joined :=
    Sql.inner_join (fun e o => Sql.eqb (Sql.e_id e) (Sql.o_employeeid o))
                   (Sql.Employee db) (Sql.CustomerOrder db) in
  let groups :=
    Sql.group_by (fun eo : Sql.EmployeeRow * Sql.CustomerOrderRow =>
                    Sql.o_employeeid (snd eo)) joined in
  flat_map (fun g : Sql.value * list (Sql.EmployeeRow * Sql.CustomerOrderRow) =>
              match snd g with
              | [] => []
              | eo :: _ =>
                  [ {| employee := fst eo;
                       ordercount :=
                         Sql.count (map (fun eo => Sql.o_employeeid (snd eo)) (snd g)) |} ]
              end)
           groups.

(** [getEmployee(id)] *)
Definition getEmployee (id : Z) (db : Sql.Database) : option Sql.EmployeeRow :=
  Sql.get (filter (fun e => Sql.eqb (Sql.e_id e) (Sql.Int id)) (Sql.Employee db)).

(* ---- what the specification says, for comparison ---- *)

(** The sum over the line items of
    [unitprice * quantity * (1 - discount)]. *)
Definition spec_subtotal (items : list Sql.OrderDetailRow) : Q :=
  fold_right (fun d acc => (Sql.d_unitprice d * Sql.d_quantity d
                            * (1 - Sql.d_discount d) + acc)%Q)
             0%Q items.

(** The line items of an order, in insertion order. *)
Definition line_items (id : Z) (db : Sql.Database) : list Sql.OrderDetailRow :=
  filter (fun d => Sql.eqb (Sql.d_orderid d) (order_id id)) (Sql.OrderDetail db).

(** The product a line item refers to. *)
Definition product_of (db : Sql.Database) (d : Sql.OrderDetailRow)
  : option Sql.ProductRow :=
  hd_error (filter (fun p => Sql.eqb (Sql.d_productid d) (Sql.p_id p)) (Sql.Product db)).

(** The orders of an employee. *)
Definition orders_of (db : Sql.Database) (e : Sql.EmployeeRow)
  : list Sql.CustomerOrderRow :=
  filter (fun o => Sql.eqb (Sql.e_id e) (Sql.o_employeeid o)) (Sql.CustomerOrder db).

(* ---- drivers used as concrete inputs ---- *)

Definition SQLITE_CONSTRAINT : Js.error :=
  Js.Error "SQLITE_CONSTRAINT: NOT NULL constraint failed".

Definition SQLITE_FULL : Js.error :=
  Js.Error "SQLITE_FULL: database or disk is full".

Definition SQLITE_NO_TRANSACTION : Js.error :=
  Js.Error "SQLITE_ERROR: cannot rollback - no transaction is active".

Definition is_null (v : Js.value) : bool :=
  match v with Js.null | Js.undefined => true | _ => false end.

(** A handle that counts row ids and refuses a detail statement whose
    product id is missing. *)
Definition constraint_run (s : stmt) (rowid : Z)
  : outcome (option RunResult) * Z :=
  match text s with
  | INSERT_CustomerOrder =>
      (Resolved (Some {| lastID := Js.number (rowid + 1) |}), rowid + 1)
  | INSERT_OrderDetail =>
      if is_null (nth 2 (params s) Js.undefined)
      then (Rejected SQLITE_CONSTRAINT, rowid)
      else (Resolved (Some {| lastID := Js.number (rowid + 1) |}), rowid + 1)
  | UPDATE_OrderDetail =>
      if is_null (nth 0 (params s) Js.undefined)
      then (Rejected SQLITE_CONSTRAINT, rowid)
      else (Resolved (Some {| lastID := Js.number rowid |}), rowid)
  | _ => (Resolved (Some {| lastID := Js.number rowid |}), rowid)
  end.

(** A handle on a full disk: the engine refuses the write, abandons the
    transaction by itself, and then refuses the [ROLLBACK]. *)
Definition full_disk_run (s : stmt) (c : unit)
  : outcome (option RunResult) * unit :=
  match text s with
  | BEGIN => (Resolved None, c)
  | ROLLBACK => (Rejected SQLITE_NO_TRANSACTION, c)
  | _ => (Rejected SQLITE_FULL, c)
  end.

(** A handle whose inserts report no generated id. *)
Definition no_id_run (s : stmt) (c : unit)
  : outcome (option RunResult) * unit :=
  (Resolved (Some {| lastID := Js.number 0 |}), c).

Definition sample_order : Order :=
  {| employeeid := Js.number 5; customerid := Js.str "ALFKI";
     shipcity := Js.str "Berlin"; shipaddress := Js.str "Obere Str. 57";
     shipname := Js.str "Alfreds"; shipvia := Js.number 1;
     shipregion := Js.null; shipcountry := Js.str "Germany";
     shippostalcode := Js.str "12209"; requireddate := Js.str "2018-01-01";
     freight := Js.number 3 |}.

Definition sample_detail (product : Js.value) : OrderDetail :=
  {| id := Js.str "7/1"; productid := product; unitprice := Js.number 10;
     quantity := Js.number 2; discount := Js.number 0 |}.

(** The claim that the original error always reaches the caller after
    exactly one [ROLLBACK], as a proposition about [createOrder]. *)
Definition always_rethrows_original : Prop :=
  forall (Conn : Type) (run : stmt -> Conn -> outcome (option RunResult) * Conn)
         order details c0 c1 (b : option RunResult) e w,
    run (Run BEGIN []) c0 = (Resolved b, c1) ->
    createOrder_try run order details (c1, [Run BEGIN []]) = (Rejected e, w) ->
    length (filter is_rollback (trace (createOrder run order details (c0, [])))) = 1%nat /\
    result (createOrder run order details (c0, [])) = Rejected e.

(** A handle that accepts everything but [COMMIT]. *)
Definition commit_refused_run (s : stmt) (c : unit)
  : outcome (option RunResult) * unit :=
  match text s with
  | COMMIT => (Rejected SQLITE_FULL, c)
  | _ => (Resolved (Some {| lastID := Js.number 7 |}), c)
  end.

(* ---- a small database used as concrete input ---- *)

Definition customer (id name : string) : Sql.CustomerRow :=
  {| Sql.c_id := Sql.Text id; Sql.c_contactname := name |}.

Definition employee_row (id : Z) (first last : string) : Sql.EmployeeRow :=
  {| Sql.e_id := Sql.Int id; Sql.e_firstname := first; Sql.e_lastname := last;
     Sql.e_region := Sql.Text "North America";
     Sql.e_hiredate := Sql.Text "2012-05-01";
     Sql.e_title := Sql.Text "Sales Representative";
     Sql.e_reportsto := Sql.NULL |}.

Definition order_row (id : Z) (customer : string) (employee : Z) (shipped : string)
  : Sql.CustomerOrderRow :=
  {| Sql.o_id := Sql.Int id; Sql.o_customerid := Sql.Text customer;
     Sql.o_employeeid := Sql.Int employee;
     Sql.o_shipcity := Sql.Text "Berlin"; Sql.o_shipaddress := Sql.Text "Obere Str. 57";
     Sql.o_shipname := Sql.Text "Alfreds"; Sql.o_shipvia := Sql.Int 1;
     Sql.o_shipregion := Sql.NULL; Sql.o_shipcountry := Sql.Text "Germany";
     Sql.o_shippostalcode := Sql.Text "12209";
     Sql.o_shippeddate := Sql.Text shipped;
     Sql.o_requireddate := Sql.Text "2018-01-01"; Sql.o_freight := Sql.Int 3 |}.

Definition detail_row (id : string) (orderid product : Z) (price qty disc : Q)
  : Sql.OrderDetailRow :=
  {| Sql.d_id := Sql.Text id; Sql.d_orderid := Sql.Int orderid;
     Sql.d_productid := Sql.Int product;
     Sql.d_unitprice := price; Sql.d_quantity := qty; Sql.d_discount := disc |}.

Definition product (id : Z) (name : string) : Sql.ProductRow :=
  {| Sql.p_id := Sql.Int id; Sql.p_productname := name |}.

(** Two customers, three employees (the third without orders), four
    orders (the last one naming a customer and an employee that do not
    exist), and line items for orders 1 and 2. *)
Definition sample_db : Sql.Database :=
  {| Sql.Customer := [customer "ALFKI" "Maria Anders"; customer "BONAP" "Laurence Lebihan"];
     Sql.Employee := [employee_row 1 "Nancy" "Davolio"; employee_row 2 "Andrew" "Fuller";
                      employee_row 3 "Janet" "Leverling"];
     Sql.CustomerOrder := [order_row 1 "ALFKI" 1 "2018-03-01";
                           order_row 2 "BONAP" 2 "2018-01-15";
                           order_row 3 "ALFKI" 1 "2018-02-10";
                           order_row 4 "GHOST" 9 "2018-04-20"];
     Sql.OrderDetail := [detail_row "1/1" 1 11 10 2 (1 # 10);
                         detail_row "2/1" 2 42 7 3 0;
                         detail_row "1/2" 1 42 5 1 0];
     Sql.Product := [product 11 "Queso Cabrales"; product 42 "Singaporean Hokkien Fried Mee"] |}.

(* ---- further notions used to state properties of the operations ---- *)

Definition is_resolved {A} (p : outcome A) : bool :=
  match p with Resolved _ => true | Rejected _ => false end.

Definition is_commit (s : stmt) : bool :=
  match text s with COMMIT => true | _ => false end.

(** A text without the quote character, which a literal spliced between
    quotes must be to stay a literal. *)
Fixpoint quote_free (s : string) : bool :=
  match s with
  | EmptyString => true
  | String c rest => negb (Ascii.eqb c "'"%char) && quote_free rest
  end.

(** The sum over returned line items of [price * (1 - discount)]. *)
Definition items_total (items : list OrderDetailRecord) : Q :=
  fold_right (fun i acc => (i_price i * (1 - i_discount i) + acc)%Q) 0%Q items.

Definition SQLITE_BUSY : Js.error :=
  Js.Error "SQLITE_BUSY: database is locked".

(** A handle on a locked database: every statement is refused. *)
Definition locked_run (s : stmt) (c : unit)
  : outcome (option RunResult) * unit :=
  (Rejected SQLITE_BUSY, c).


(* ---- the inputs for which the listing statement reads as written ---- *)

(** Number.MAX_SAFE_INTEGER: up to it, integers and their products are
    computed exactly and print as plain digits. *)
Definition MAX_SAFE_INTEGER : Z := 2 ^ 53 - 1.

(** A customer id that is not spliced at all, or whose text stays
    inside the quotes it is spliced between. *)
Definition literal_customer_id (customerId : Js.value) : bool :=
  negb (Js.truthy customerId) || quote_free (Js.ToString customerId).

(** The rows that the [WHERE] clause of [getAllOrders] keeps. *)
Definition selected_rows (customerId : Js.value) (db : Sql.Database)
  : list (Sql.CustomerOrderRow * option Sql.CustomerRow * option Sql.EmployeeRow) :=
  if Js.truthy customerId
  then filter (fun r => Sql.eqb (Sql.o_customerid (fst (fst r)))
                                (Sql.Text (Js.ToString customerId)))
              (orders_joined db)
  else orders_joined db.


(** Page and page size are integers that the language computes with
    exactly, and so is the offset made of them. *)
Definition exact_numbers (o : OrderCollectionOptions) : bool :=
  (- MAX_SAFE_INTEGER <=? page o) && (page o <=? MAX_SAFE_INTEGER)
  && (- MAX_SAFE_INTEGER <=? perPage o) && (perPage o <=? MAX_SAFE_INTEGER)
  && (- MAX_SAFE_INTEGER <=? (page o - 1) * perPage o)
  && ((page o - 1) * perPage o <=? MAX_SAFE_INTEGER).

(* ================================================================== *)
(** * Facts about the transactional operations *)

Section TransactionFacts.

Variable Conn : Type.
Variable run : stmt -> Conn -> outcome (option RunResult) * Conn.

Lemma map_insert_details_run :
  forall details orderid count c log,
    map_insert_details run orderid count details (c, log) =
    (Resolved (fst (run_all run (detail_inserts orderid count details) c)),
     (snd (run_all run (detail_inserts orderid count details) c),
      log ++ detail_inserts orderid count details)).
Proof.
  induction details as [|d rest IH]; intros orderid count c log; simpl.
  - unfold ret. now rewrite app_nil_r.
  - unfold bind, dispatch at 1.
    destruct (run (insert_detail orderid count d) c) as [a c'] eqn:E.
    rewrite IH. unfold ret.
    destruct (run_all run (detail_inserts orderid (count + 1) rest) c')
      as [answers c''] eqn:E'.
    simpl. now rewrite <- app_assoc.
Qed.

Lemma map_update_details_run :
  forall details c log,
    map_update_details run details (c, log) =
    (Resolved (fst (run_all run (map update_detail details) c)),
     (snd (run_all run (map update_detail details) c),
      log ++ map update_detail details)).
Proof.
  induction details as [|d rest IH]; intros c log; simpl.
  - unfold ret. now rewrite app_nil_r.
  - unfold bind, dispatch at 1.
    destruct (run (update_detail d) c) as [a c'] eqn:E.
    rewrite IH. unfold ret.
    destruct (run_all run (map update_detail rest) c') as [answers c''] eqn:E'.
    simpl. now rewrite <- app_assoc.
Qed.

Lemma detail_inserts_no_rollback :
  forall details orderid count,
    filter is_rollback (detail_inserts orderid count details) = [].
Proof.
  induction details as [|d rest IH]; intros; simpl; auto.
Qed.

Lemma detail_inserts_all_inserts :
  forall details orderid count,
    filter is_detail_insert (detail_inserts orderid count details) =
    detail_inserts orderid count details.
Proof.
  induction details as [|d rest IH]; intros; simpl; auto.
  unfold is_detail_insert at 1. simpl. now rewrite IH.
Qed.

Lemma update_details_no_rollback :
  forall details, filter is_rollback (map update_detail details) = [].
Proof.
  induction details as [|d rest IH]; simpl; auto.
Qed.

(** The try block of [createOrder] extends the log by the header
    insert, then the detail inserts and possibly [COMMIT]; it never
    dispatches a [ROLLBACK]. *)
Lemma createOrder_try_log :
  forall order details c log o c' log',
    createOrder_try run order details (c, log) = (o, (c', log')) ->
    exists ext, log' = log ++ ext /\ filter is_rollback ext = [].
Proof.
  intros order details c log o c' log' H.
  unfold createOrder_try, bind, db_run, bind, dispatch, await in H.
  destruct (run (insert_order order) c) as [h c1] eqn:Eh.
  destruct h as [h|e].
  - destruct (no_generated_id h) eqn:Et.
    + unfold throw in H. inversion H; subst.
      exists [insert_order order]. now split.
    + rewrite map_insert_details_run in H.
      set (ins := detail_inserts (lastID_of h) 1 details) in *.
      destruct (Promise_all (fst (run_all run ins c1))) as [l|e] eqn:Ep.
      * destruct (run (Run COMMIT []) (snd (run_all run ins c1))) as [cm c3] eqn:Ec.
        exists ([insert_order order] ++ ins ++ [Run COMMIT []]).
        split.
        -- destruct cm; unfold ret in H; inversion H; subst;
             now rewrite <- !app_assoc.
        -- simpl. rewrite filter_app. unfold ins.
           now rewrite detail_inserts_no_rollback.
      * inversion H; subst. exists ([insert_order order] ++ ins).
        split; [now rewrite <- app_assoc|].
        simpl. unfold ins. now rewrite detail_inserts_no_rollback.
  - inversion H; subst. exists [insert_order order]. now split.
Qed.

Lemma updateOrder_try_log :
  forall id data details c log o c' log',
    updateOrder_try run id data details (c, log) = (o, (c', log')) ->
    exists ext, log' = log ++ ext /\ filter is_rollback ext = [].
Proof.
  intros id data details c log o c' log' H.
  unfold updateOrder_try, bind, db_run, bind, dispatch, await in H.
  destruct (run (update_order id data) c) as [h c1] eqn:Eh.
  destruct h as [r|e].
  - rewrite map_update_details_run in H.
    set (ups := map update_detail details) in *.
    destruct (Promise_all (fst (run_all run ups c1))) as [l|e] eqn:Ep.
    + destruct (run (Run COMMIT []) (snd (run_all run ups c1))) as [cm c3] eqn:Ec.
      exists ([update_order id data] ++ ups ++ [Run COMMIT []]).
      split.
      * destruct cm; unfold ret in H; inversion H; subst;
          now rewrite <- !app_assoc.
      * simpl. rewrite filter_app. unfold ups.
        now rewrite update_details_no_rollback.
    + inversion H; subst. exists ([update_order id data] ++ ups).
      split; [now rewrite <- app_assoc|].
      simpl. unfold ups. now rewrite update_details_no_rollback.
  - inversion H; subst. exists [update_order id data]. now split.
Qed.

(** The shape shared by both operations: [BEGIN], a try block, and a
    handler that rolls back and rethrows. *)
Lemma rollback_handler :
  forall (A : Type) (body : Async Conn A) c0 c1 (b : option RunResult) e c2 log,
    run (Run BEGIN []) c0 = (Resolved b, c1) ->
    body (c1, [Run BEGIN []]) = (Rejected e, (c2, log)) ->
    bind (db_run run (Run BEGIN []))
         (fun _ => try_catch body
                     (fun e => bind (db_run run (Run ROLLBACK []))
                                    (fun _ => throw e))) (c0, []) =
    (match fst (run (Run ROLLBACK []) c2) with
     | Resolved _ => Rejected e
     | Rejected e' => Rejected e'
     end,
     (snd (run (Run ROLLBACK []) c2), log ++ [Run ROLLBACK []])).
Proof.
  intros A body c0 c1 b e c2 log Hb Hbody.
  unfold bind, db_run, bind, dispatch, await, try_catch. simpl.
  rewrite Hb, Hbody.
  destruct (run (Run ROLLBACK []) c2) as [[x|e'] c3]; reflexivity.
Qed.

(** [Promise.all] rejects exactly when some promise is rejected, and
    then with the error of the first rejected one. *)
Lemma Promise_all_rejected :
  forall (A : Type) (ps : list (outcome A)) e,
    Promise_all ps = Rejected e <->
    exists k,
      nth_error ps k = Some (Rejected e) /\
      forall j, (j < k)%nat -> exists a, nth_error ps j = Some (Resolved a).
Proof.
  intros A ps e. induction ps as [|p ps IH]; simpl.
  - split; [discriminate|]. intros [[|k] [H _]]; discriminate.
  - destruct p as [a|e0].
    + destruct (Promise_all ps) as [l|e1].
      * split; [discriminate|]. intros [[|k] [Hk Hj]]; [discriminate|].
        assert (Hr : Resolved l = Rejected e); [|discriminate Hr].
        apply IH. exists k. split; auto.
        intros j Hlt. apply (Hj (S j)). lia.
      * split.
        -- intros H. inversion H; subst.
           destruct (proj1 IH eq_refl) as [k [Hk Hj]].
           exists (S k). split; auto.
           intros [|j] Hlt; simpl; eauto. apply Hj. lia.
        -- intros [[|k] [Hk Hj]]; [discriminate|].
           f_equal. assert (Hr : Rejected e1 = Rejected e :> outcome (list A)).
           { apply IH. exists k. split; auto.
             intros j Hlt. apply (Hj (S j)). lia. }
           now inversion Hr.
    + split.
      * intros H. inversion H; subst. exists 0%nat. split; auto.
        intros j Hlt. lia.
      * intros [[|k] [Hk Hj]].
        -- now inversion Hk.
        -- destruct (Hj 0%nat) as [a Ha]; [lia|discriminate].
Qed.

(** The failures of the try block of [createOrder], cause by cause:
    a refused header insert, a refused detail insert, a refused
    [COMMIT]. *)
Lemma createOrder_try_header_rejected :
  forall order details c c' log e,
    run (insert_order order) c = (Rejected e, c') ->
    createOrder_try run order details (c, log) =
    (Rejected e, (c', log ++ [insert_order order])).
Proof.
  intros order details c c' log e H.
  unfold createOrder_try, bind, db_run, bind, dispatch, await.
  now rewrite H.
Qed.

Lemma createOrder_try_detail_rejected :
  forall order details c c' log r e,
    run (insert_order order) c = (Resolved (Some r), c') ->
    Js.truthy (lastID r) = true ->
    Promise_all (fst (run_all run (detail_inserts (lastID r) 1 details) c'))
    = Rejected e ->
    createOrder_try run order details (c, log) =
    (Rejected e,
     (snd (run_all run (detail_inserts (lastID r) 1 details) c'),
      (log ++ [insert_order order]) ++ detail_inserts (lastID r) 1 details)).
Proof.
  intros order details c c' log r e Hh Ht Hp.
  unfold createOrder_try, bind, db_run, bind, dispatch, await.
  rewrite Hh. simpl. rewrite Ht. simpl.
  rewrite map_insert_details_run. now rewrite Hp.
Qed.

Lemma createOrder_try_commit_rejected :
  forall order details c c' c'' log r l e,
    run (insert_order order) c = (Resolved (Some r), c') ->
    Js.truthy (lastID r) = true ->
    Promise_all (fst (run_all run (detail_inserts (lastID r) 1 details) c'))
    = Resolved l ->
    run (Run COMMIT []) (snd (run_all run (detail_inserts (lastID r) 1 details) c'))
    = (Rejected e, c'') ->
    createOrder_try run order details (c, log) =
    (Rejected e,
     (c'', ((log ++ [insert_order order]) ++ detail_inserts (lastID r) 1 details)
             ++ [Run COMMIT []])).
Proof.
  intros order details c c' c'' log r l e Hh Ht Hp Hc.
  unfold createOrder_try, bind, db_run, bind, dispatch, await.
  rewrite Hh. simpl. rewrite Ht. simpl.
  rewrite map_insert_details_run. now rewrite Hp, Hc.
Qed.

(** The same for [updateOrder]. *)
Lemma updateOrder_try_header_rejected :
  forall id (data : UpdateData) details c c' log e,
    run (update_order id data) c = (Rejected e, c') ->
    updateOrder_try run id data details (c, log) =
    (Rejected e, (c', log ++ [update_order id data])).
Proof.
  intros id data details c c' log e H.
  unfold updateOrder_try, bind, db_run, bind, dispatch, await.
  now rewrite H.
Qed.

Lemma updateOrder_try_detail_rejected :
  forall id (data : UpdateData) details c c' log h e,
    run (update_order id data) c = (Resolved h, c') ->
    Promise_all (fst (run_all run (map update_detail details) c')) = Rejected e ->
    updateOrder_try run id data details (c, log) =
    (Rejected e,
     (snd (run_all run (map update_detail details) c'),
      (log ++ [update_order id data]) ++ map update_detail details)).
Proof.
  intros id data details c c' log h e Hh Hp.
  unfold updateOrder_try, bind, db_run, bind, dispatch, await.
  rewrite Hh. rewrite map_update_details_run. now rewrite Hp.
Qed.

End TransactionFacts.

Section InsertTrace.

Variable Conn : Type.
Variable run : stmt -> Conn -> outcome (option RunResult) * Conn.

Lemma detail_inserts_seq :
  forall details orderid k,
    detail_inserts orderid (Z.of_nat k) details =
    map (fun kd => insert_detail orderid (Z.of_nat (fst kd)) (snd kd))
        (combine (seq k (length details)) details).
Proof.
  induction details as [|d rest IH]; intros orderid k; simpl; auto.
  f_equal. rewrite <- IH. f_equal. lia.
Qed.

Lemma detail_inserts_ids :
  forall details orderid k,
    map first_param (detail_inserts orderid (Z.of_nat k) details) =
    map (fun n => Some (detail_id orderid n)) (seq k (length details)).
Proof.
  induction details as [|d rest IH]; intros orderid k; simpl; auto.
  f_equal. rewrite <- IH. do 2 f_equal. lia.
Qed.

Lemma detail_inserts_nth :
  forall details orderid k n detail,
    nth_error details n = Some detail ->
    nth_error (detail_inserts orderid (Z.of_nat k) details) n =
    Some (insert_detail orderid (Z.of_nat (k + n)) detail).
Proof.
  induction details as [|d rest IH]; intros orderid k n detail H.
  - destruct n; discriminate.
  - destruct n as [|n]; simpl in *.
    + inversion H; subst. now rewrite Nat.add_0_r.
    + replace (Z.of_nat k + 1) with (Z.of_nat (S k)) by lia.
      rewrite (IH orderid (S k) n detail H). do 3 f_equal. lia.
Qed.

(** Once the header insert has produced an id, the log of
    [createOrder] is [BEGIN], the header insert, one insert per detail
    entry, and a tail made of [COMMIT] and [ROLLBACK] only. *)
Lemma createOrder_log_with_id :
  forall order details c0 c1 c2 (b : option RunResult) r,
    run (Run BEGIN []) c0 = (Resolved b, c1) ->
    run (insert_order order) c1 = (Resolved (Some r), c2) ->
    Js.truthy (lastID r) = true ->
    exists tail,
      trace (createOrder run order details (c0, [])) =
      [Run BEGIN []; insert_order order]
        ++ detail_inserts (lastID r) 1 details ++ tail /\
      filter is_detail_insert tail = [].
Proof.
  intros order details c0 c1 c2 b r Hb Hh Ht.
  unfold createOrder, createOrder_try, trace.
  unfold bind, db_run, bind, dispatch, await, try_catch. simpl.
  rewrite Hb, Hh. simpl. rewrite Ht. simpl.
  rewrite map_insert_details_run.
  set (ins := detail_inserts (lastID r) 1 details).
  destruct (Promise_all (fst (run_all run ins c2))) as [l|e].
  - destruct (run (Run COMMIT []) (snd (run_all run ins c2))) as [[x|e] c3].
    + exists [Run COMMIT []]. unfold ret. simpl. split; auto.
    + destruct (run (Run ROLLBACK []) c3) as [[x|e'] c4];
        exists [Run COMMIT []; Run ROLLBACK []]; unfold throw; simpl;
        (split; [now rewrite <- !app_assoc | reflexivity]).
  - destruct (run (Run ROLLBACK []) (snd (run_all run ins c2))) as [[x|e'] c4];
      exists [Run ROLLBACK []]; unfold throw; simpl; split; auto.
Qed.

End InsertTrace.

(* ================================================================== *)
(** * Facts about the relational operators *)

Section ValueFacts.

Lemma eqb_sym : forall a b, Sql.eqb a b = Sql.eqb b a.
Proof.
  intros [|x|s] [|y|t]; simpl; auto.
  - destruct (Qeq_bool x y) eqn:E, (Qeq_bool y x) eqn:E'; auto.
    + apply Qeq_bool_sym in E. congruence.
    + apply Qeq_bool_sym in E'. congruence.
  - apply String.eqb_sym.
Qed.

Lemma eqb_trans :
  forall a b c, Sql.eqb a b = true -> Sql.eqb b c = true -> Sql.eqb a c = true.
Proof.
  intros [|x|s] [|y|t] [|z|u]; simpl; try discriminate; auto.
  - apply Qeq_bool_trans.
  - intros H1 H2. apply String.eqb_eq in H1, H2. subst. apply String.eqb_refl.
Qed.

Lemma eqb_same : forall a b, Sql.eqb a b = true -> Sql.same a b = true.
Proof. intros [|x|s] [|y|t]; simpl; auto. Qed.

(** Two values equal to a third one fall in the same group. *)
Lemma eqb_same_via :
  forall v a b, Sql.eqb a v = true -> Sql.eqb b v = true -> Sql.same a b = true.
Proof.
  intros v a b Ha Hb. apply eqb_same. apply eqb_trans with v; auto.
  now rewrite eqb_sym.
Qed.

Lemma same_eqb_left :
  forall a b v, Sql.same a b = true -> Sql.eqb v a = true -> Sql.eqb v b = true.
Proof.
  intros a b v Hs Ha.
  assert (Sql.eqb a b = true).
  { destruct a, b; simpl in *; try discriminate; auto.
    destruct v; discriminate. }
  now apply eqb_trans with a.
Qed.

End ValueFacts.

Section JoinFacts.

Context {A B : Type}.
Variable on : A -> B -> bool.

Lemma filter_fst_const :
  forall (P : A -> bool) a (ms : list (A * option B)),
    (forall x, In x ms -> fst x = a) ->
    filter (fun x => P (fst x)) ms = if P a then ms else [].
Proof.
  intros P a. induction ms as [|m ms IHm]; intros Hall; simpl.
  - now destruct (P a).
  - rewrite (Hall m (or_introl eq_refl)).
    rewrite IHm by (intros; apply Hall; now right).
    now destruct (P a).
Qed.

Lemma left_join_filter_left :
  forall (P : A -> bool) (l : list A) (r : list B),
    filter (fun x => P (fst x)) (Sql.left_join on l r) =
    Sql.left_join on (filter P l) r.
Proof.
  intros P l r. unfold Sql.left_join.
  induction l as [|a l IH]; [reflexivity|].
  cbn [flat_map filter].
  rewrite filter_app, IH, (filter_fst_const P a).
  - destruct (P a); reflexivity.
  - intros x Hx. destruct (filter (on a) r) as [|b ms].
    + destruct Hx as [<-|[]]. reflexivity.
    + apply in_map_iff in Hx. destruct Hx as [b' [<- _]]. reflexivity.
Qed.

Lemma left_join_hd :
  forall a (l : list A) (r : list B),
    hd_error (Sql.left_join on (a :: l) r) = Some (a, hd_error (filter (on a) r)).
Proof.
  intros a l r. unfold Sql.left_join. simpl.
  destruct (filter (on a) r) as [|b ms]; reflexivity.
Qed.

Lemma left_join_nil :
  forall (r : list B), Sql.left_join on [] r = [].
Proof. reflexivity. Qed.

Lemma left_join_cons :
  forall a (l : list A) (r : list B),
    exists rest,
      Sql.left_join on (a :: l) r = (a, hd_error (filter (on a) r)) :: rest.
Proof.
  intros a l r. unfold Sql.left_join. simpl.
  destruct (filter (on a) r) as [|b ms]; simpl; eauto.
Qed.

(** When no left row has two matches, the join keeps one row per
    left row. *)
Lemma left_join_functional :
  forall (l : list A) (r : list B),
    (forall a, (length (filter (on a) r) <= 1)%nat) ->
    Sql.left_join on l r = map (fun a => (a, hd_error (filter (on a) r))) l.
Proof.
  intros l r H. unfold Sql.left_join.
  set (f := fun a : A => match filter (on a) r with
                         | [] => [(a, None)]
                         | matches => map (fun b => (a, Some b)) matches
                         end).
  induction l as [|a l IH]; [reflexivity|].
  simpl. rewrite IH. unfold f at 1. specialize (H a).
  destruct (filter (on a) r) as [|b [|b' ms]]; simpl in *; auto. lia.
Qed.

Lemma left_join_covers :
  forall (l : list A) (r : list B) a,
    In a l -> exists b, In (a, b) (Sql.left_join on l r).
Proof.
  intros l r a Ha. unfold Sql.left_join.
  destruct (filter (on a) r) as [|b ms] eqn:E.
  - exists None. apply in_flat_map. exists a. rewrite E. split; simpl; auto.
  - exists (Some b). apply in_flat_map. exists a. rewrite E. split; simpl; auto.
Qed.

End JoinFacts.

Section KeyFacts.

Context {A : Type}.
Variable key : A -> Sql.value.

Lemma unique_keys_one_match :
  forall (l : list A) v,
    Sql.unique_keys (map key l) = true ->
    (length (filter (fun a => Sql.eqb v (key a)) l) <= 1)%nat.
Proof.
  induction l as [|a l IH]; intros v H; simpl in *; auto.
  apply andb_prop in H. destruct H as [Hn Hu].
  destruct (Sql.eqb v (key a)) eqn:E.
  - assert (Hnone : filter (fun a0 => Sql.eqb v (key a0)) l = []).
    { destruct (filter (fun a0 => Sql.eqb v (key a0)) l) as [|b t] eqn:Ef; auto.
      assert (Hb : In b (filter (fun a0 => Sql.eqb v (key a0)) l))
        by (rewrite Ef; now left).
      apply filter_In in Hb. destruct Hb as [Hin Hb].
      apply negb_true_iff in Hn.
      assert (existsb (Sql.eqb (key a)) (map key l) = true).
      { apply existsb_exists. exists (key b). split.
        - now apply in_map.
        - apply eqb_trans with v; auto. now rewrite eqb_sym. }
      congruence. }
    rewrite Hnone. simpl. lia.
  - now apply IH.
Qed.

End KeyFacts.

Section GroupFacts.

Context {A : Type}.
Variable key : A -> Sql.value.

(** Rows that all belong to the group [(k, g)] are appended to it. *)
Lemma group_extend :
  forall (l : list A) k g rest,
    (forall a, In a l -> Sql.same k (key a) = true) ->
    fold_left (fun groups a => Sql.group_insert key a groups) l ((k, g) :: rest)
    = (k, g ++ l) :: rest.
Proof.
  induction l as [|a l IH]; intros k g rest H; simpl.
  - now rewrite app_nil_r.
  - rewrite (H a (or_introl eq_refl)).
    rewrite IH by (intros; apply H; now right).
    now rewrite <- app_assoc.
Qed.

(** Rows of one key form one group. *)
Lemma group_by_one_key :
  forall a (l : list A),
    (forall b, In b l -> Sql.same (key a) (key b) = true) ->
    Sql.group_by key (a :: l) = [(key a, a :: l)].
Proof.
  intros a l H. unfold Sql.group_by. simpl.
  now rewrite group_extend.
Qed.

(** A row whose key matches no existing group opens a group at the
    end. *)
Lemma group_insert_new :
  forall a (groups : list (Sql.value * list A)),
    (forall kg, In kg groups -> Sql.same (fst kg) (key a) = false) ->
    Sql.group_insert key a groups = groups ++ [(key a, [a])].
Proof.
  induction groups as [|[k g] groups IH]; intros H; simpl; auto.
  pose proof (H (k, g) (or_introl eq_refl)) as Hk. simpl in Hk.
  rewrite Hk, IH by (intros; apply H; now right). reflexivity.
Qed.

Lemma group_extend_last :
  forall (l : list A) groups k g,
    (forall kg, In kg groups -> forall a, In a l -> Sql.same (fst kg) (key a) = false) ->
    (forall a, In a l -> Sql.same k (key a) = true) ->
    fold_left (fun groups a => Sql.group_insert key a groups) l (groups ++ [(k, g)])
    = groups ++ [(k, g ++ l)].
Proof.
  induction groups as [|[k' g'] groups IH]; intros k g Hnew Hsame; simpl.
  - now apply group_extend.
  - assert (Hstep : forall (l0 : list A) rest,
               (forall a, In a l0 -> Sql.same k' (key a) = false) ->
               fold_left (fun groups a => Sql.group_insert key a groups) l0
                         ((k', g') :: rest)
               = (k', g') ::
                 fold_left (fun groups a => Sql.group_insert key a groups) l0 rest).
    { induction l0 as [|a l0 IH0]; intros rest H0; simpl; auto.
      rewrite (H0 a (or_introl eq_refl)).
      apply IH0. intros; apply H0; now right. }
    rewrite Hstep.
    + f_equal. apply IH; auto.
      intros kg Hkg. apply Hnew. now right.
    + intros a Ha. exact (Hnew (k', g') (or_introl eq_refl) a Ha).
Qed.

(** A block of rows of one key, none of which matches an existing
    group, becomes one new group at the end. *)
Lemma group_block :
  forall a (l : list A) groups,
    (forall kg, In kg groups -> forall b, In b (a :: l) ->
                                          Sql.same (fst kg) (key b) = false) ->
    (forall b, In b l -> Sql.same (key a) (key b) = true) ->
    fold_left (fun groups a => Sql.group_insert key a groups) (a :: l) groups
    = groups ++ [(key a, a :: l)].
Proof.
  intros a l groups Hnew Hsame. simpl.
  rewrite group_insert_new.
  - rewrite group_extend_last; auto.
    intros kg Hkg b Hb. apply Hnew; auto. now right.
  - intros kg Hkg. apply Hnew; auto. now left.
Qed.

End GroupFacts.

Section PagingFacts.

Context {A : Type}.



Lemma order_by_In :
  forall (le : A -> A -> bool) (l : list A) x,
    In x (Sql.order_by le l) <-> In x l.
Proof.
  intros le l x.
  assert (Hins : forall a s, In x (Sql.insert_sorted le a s) <-> x = a \/ In x s).
  { intros a s. induction s as [|b s IH]; simpl.
    - intuition.
    - destruct (le a b); simpl; intuition. }
  induction l as [|a l IH]; simpl; [tauto|].
  rewrite Hins, IH. intuition.
Qed.

End PagingFacts.

Lemma fold_left_Qplus :
  forall (l : list Q) (acc : Q),
    (fold_left Qplus l acc == acc + fold_right Qplus 0 l)%Q.
Proof.
  induction l as [|x l IH]; intros acc; simpl.
  - ring.
  - rewrite IH. ring.
Qed.

Section OrderFacts.

Context {A : Type}.
Variable le : A -> A -> bool.
Hypothesis le_total : forall a b, le a b = false -> le b a = true.

Lemma insert_sorted_Sorted :
  forall a l,
    Sorted (fun x y => le x y = true) l ->
    Sorted (fun x y => le x y = true) (Sql.insert_sorted le a l).
Proof.
  intros a l H. induction H as [|b l Hs IH Hhd]; simpl.
  - repeat constructor.
  - destruct (le a b) eqn:E.
    + constructor; [now constructor | now constructor].
    + constructor; auto.
      destruct l as [|c l]; simpl.
      * constructor. now apply le_total.
      * destruct (le a c); constructor.
        -- now apply le_total.
        -- now inversion Hhd.
Qed.

(** [ORDER BY] delivers its rows in order. *)
Lemma order_by_Sorted :
  forall l, Sorted (fun x y => le x y = true) (Sql.order_by le l).
Proof.
  induction l as [|a l IH]; simpl.
  - constructor.
  - now apply insert_sorted_Sorted.
Qed.

End OrderFacts.

Lemma compare_antisym :
  forall a b, Sql.compare b a = CompOpp (Sql.compare a b).
Proof.
  intros [|x|s] [|y|t]; simpl; auto.
  - now rewrite <- Qcompare_antisym.
  - apply String.compare_antisym.
Qed.

Lemma in_order_total :
  forall d a b, in_order d a b = false -> in_order d b a = true.
Proof.
  intros d a b. unfold in_order. rewrite (compare_antisym a b).
  destruct d, (Sql.compare a b); simpl; auto; discriminate.
Qed.

(** The rows of the listing are the columns of [ALL_ORDERS_COLUMNS] of
    the order row, in that order. *)
Lemma listing_row_columns :
  forall o c e,
    map (fun name => option_map (fun col => col o) (column name)) ALL_ORDERS_COLUMNS =
    map Some [ l_id (listing_row (o, c, e)); l_customerid (listing_row (o, c, e));
               l_employeeid (listing_row (o, c, e)); l_shipcity (listing_row (o, c, e));
               l_shipcountry (listing_row (o, c, e));
               l_shippeddate (listing_row (o, c, e)) ].
Proof. reflexivity. Qed.

(** The listing statement sorts by the requested column in the
    requested direction. *)
Lemma listing_sorted :
  forall (d : direction) (col : Sql.CustomerOrderRow -> Sql.value)
         (l : list (Sql.CustomerOrderRow * option Sql.CustomerRow * option Sql.EmployeeRow)),
    Sorted (fun a b => in_order d (col (fst (fst a))) (col (fst (fst b))) = true)
           (Sql.order_by (fun a b => in_order d (col (fst (fst a))) (col (fst (fst b)))) l).
Proof.
  intros d col l. apply order_by_Sorted.
  intros a b. apply in_order_total.
Qed.

(* ================================================================== *)
(** * Facts about the queries *)

Lemma orders_joined_filter :
  forall db (P : Sql.CustomerOrderRow -> bool),
    filter (fun r => P (fst (fst r))) (orders_joined db) =
    Sql.left_join
      (fun oc e => Sql.eqb (Sql.o_employeeid (fst oc)) (Sql.e_id e))
      (Sql.left_join (fun o c => Sql.eqb (Sql.o_customerid o) (Sql.c_id c))
                     (filter P (Sql.CustomerOrder db)) (Sql.Customer db))
      (Sql.Employee db).
Proof.
  intros db P. unfold orders_joined.
  etransitivity.
  - apply (left_join_filter_left _ (fun oc => P (fst oc))).
  - now rewrite left_join_filter_left.
Qed.

(** [getOrder] answers from the first order row with the id, joined
    with the first customer and the first employee that match it. *)
Lemma getOrder_first :
  forall id db,
    getOrder id db =
    match filter (fun o => Sql.eqb (Sql.o_id o) (order_id id)) (Sql.CustomerOrder db) with
    | [] => None
    | o :: _ =>
        let c := hd_error (filter (fun c => Sql.eqb (Sql.o_customerid o) (Sql.c_id c))
                                  (Sql.Customer db)) in
        let e := hd_error (filter (fun e => Sql.eqb (Sql.o_employeeid o) (Sql.e_id e))
                                  (Sql.Employee db)) in
        Some {| r_id := Sql.o_id o;
                r_customerid := joined_customer_id c;
                r_employeeid := joined_employee_id e;
                r_customername := customername c;
                r_employeename := employeename e;
                r_subtotal := subtotal_subquery id db |}
    end.
Proof.
  intros id db. unfold getOrder.
  rewrite (orders_joined_filter db (fun o => Sql.eqb (Sql.o_id o) (order_id id))).
  destruct (filter (fun o => Sql.eqb (Sql.o_id o) (order_id id)) (Sql.CustomerOrder db))
    as [|o rest]; [reflexivity|].
  destruct (left_join_cons (fun o c => Sql.eqb (Sql.o_customerid o) (Sql.c_id c))
                           o rest (Sql.Customer db)) as [rest1 ->].
  destruct (left_join_cons (fun (oc : Sql.CustomerOrderRow * option Sql.CustomerRow) e =>
                              Sql.eqb (Sql.o_employeeid (fst oc)) (Sql.e_id e))
                           (o, hd_error (filter (fun c => Sql.eqb (Sql.o_customerid o) (Sql.c_id c))
                                                (Sql.Customer db)))
                           rest1 (Sql.Employee db)) as [rest2 ->].
  reflexivity.
Qed.

(** The subquery adds up the line items of the order, and is [NULL]
    when there is none. *)
Lemma subtotal_subquery_sum :
  forall id db,
    subtotal_subquery id db =
    Sql.sum (map (fun d => (Sql.d_unitprice d * Sql.d_quantity d
                            * (1 - Sql.d_discount d))%Q)
                 (line_items id db)).
Proof.
  intros id db. unfold subtotal_subquery, line_items.
  destruct (filter (fun d => Sql.eqb (Sql.d_orderid d) (order_id id)) (Sql.OrderDetail db))
    as [|d rest] eqn:E; [reflexivity|].
  rewrite group_by_one_key; [reflexivity|].
  intros b Hb.
  assert (Hd : In d (d :: rest)) by now left.
  assert (Hb' : In b (d :: rest)) by now right.
  rewrite <- E in Hd, Hb'.
  apply filter_In in Hd, Hb'.
  apply eqb_same_via with (order_id id); tauto.
Qed.

Lemma sum_spec_subtotal :
  forall d (items : list Sql.OrderDetailRow),
    exists q,
      Sql.sum (map (fun d => (Sql.d_unitprice d * Sql.d_quantity d
                              * (1 - Sql.d_discount d))%Q)
                   (d :: items)) = Some q /\
      (q == spec_subtotal (d :: items))%Q.
Proof.
  intros d items. eexists. split; [reflexivity|].
  rewrite fold_left_Qplus.
  assert (H : forall l,
             (fold_right Qplus 0
                         (map (fun d => Sql.d_unitprice d * Sql.d_quantity d
                                        * (1 - Sql.d_discount d)) l)
              == spec_subtotal l)%Q).
  { induction l as [|x l IH]; simpl; [reflexivity|]. now rewrite IH. }
  rewrite H. ring.
Qed.

Lemma filter_twice_negb :
  forall (A : Type) (P : A -> bool) (l : list A),
    filter P (filter (fun a => negb (P a)) l) = [].
Proof.
  intros A P l. induction l as [|a l IH]; simpl; auto.
  destruct (P a) eqn:E; simpl; auto. now rewrite E.
Qed.

(** With product ids unique, every line item of the order yields one
    row, in table order. *)
Lemma getOrderDetails_rows :
  forall id db,
    Sql.unique_keys (map Sql.p_id (Sql.Product db)) = true ->
    getOrderDetails id db =
    map (fun d => detail_record (d, product_of db d)) (line_items id db).
Proof.
  intros id db Hu. unfold getOrderDetails, line_items, product_of.
  rewrite left_join_functional.
  - induction (Sql.OrderDetail db) as [|d l IH]; simpl; auto.
    destruct (Sql.eqb (Sql.d_orderid d) (order_id id)); simpl; now rewrite IH.
  - intros d. now apply unique_keys_one_match.
Qed.

(** With a sort option that names a column, the listing statement reads
    as written: the rows that the [WHERE] clause keeps, sorted by that
    column, then the window of [LIMIT] and [OFFSET]. *)
Lemma listing_as_written :
  forall db opts customerId col,
    column (sort (spread DEFAULT_ORDER_COLLECTION_OPTIONS opts)) = Some col ->
    ordered_rows (getAllOrders_statement opts customerId) db =
      Resolved (map listing_row
                    (Sql.order_by
                       (fun a b =>
                          in_order (order (spread DEFAULT_ORDER_COLLECTION_OPTIONS opts))
                                   (col (fst (fst a))) (col (fst (fst b))))
                       (selected_rows customerId db))) /\
    getAllOrders opts customerId db =
      Resolved (Sql.limit_offset
                  (limit (getAllOrders_statement opts customerId))
                  (offset (getAllOrders_statement opts customerId))
                  (map listing_row
                       (Sql.order_by
                          (fun a b =>
                             in_order (order (spread DEFAULT_ORDER_COLLECTION_OPTIONS opts))
                                      (col (fst (fst a))) (col (fst (fst b))))
                          (selected_rows customerId db)))).
Proof.
  intros db opts customerId col Hcol.
  assert (Hord : ordered_rows (getAllOrders_statement opts customerId) db =
                 Resolved (map listing_row
                    (Sql.order_by
                       (fun a b =>
                          in_order (order (spread DEFAULT_ORDER_COLLECTION_OPTIONS opts))
                                   (col (fst (fst a))) (col (fst (fst b))))
                       (selected_rows customerId db)))).
  { unfold ordered_rows.
    change (order_by_column (getAllOrders_statement opts customerId))
      with (sort (spread DEFAULT_ORDER_COLLECTION_OPTIONS opts)).
    rewrite Hcol. unfold selected_rows, getAllOrders_statement.
    cbn [whereClause order_by_direction].
    destruct (Js.truthy customerId); reflexivity. }
  split; [exact Hord|].
  unfold getAllOrders, all_orders. now rewrite Hord.
Qed.

Section EmployeeFacts.

Variable db : Sql.Database.

Let key (eo : Sql.EmployeeRow * Sql.CustomerOrderRow) : Sql.value :=
  Sql.o_employeeid (snd eo).

Let block (e : Sql.EmployeeRow) : list (Sql.EmployeeRow * Sql.CustomerOrderRow) :=
  map (fun o => (e, o)) (orders_of db e).

Lemma block_key :
  forall e eo, In eo (block e) -> Sql.eqb (Sql.e_id e) (key eo) = true.
Proof.
  intros e eo H. unfold block in H. apply in_map_iff in H.
  destruct H as [o [<- Ho]]. unfold orders_of in Ho.
  apply filter_In in Ho. tauto.
Qed.

(** The groups of the joined rows: one per employee with orders, in
    table order, holding that employee's joined rows. *)
Lemma employee_groups :
  forall (es : list Sql.EmployeeRow) groups,
    Sql.unique_keys (map Sql.e_id es) = true ->
    (forall kg, In kg groups ->
                forall e eo, In e es -> In eo (block e) ->
                             Sql.same (fst kg) (key eo) = false) ->
    fold_left (fun groups a => Sql.group_insert key a groups)
              (flat_map block es) groups
    = groups ++ flat_map (fun e => match block e with
                                   | [] => []
                                   | eo :: _ => [(key eo, block e)]
                                   end) es.
Proof.
  induction es as [|e es IH]; intros groups Hu Hnew; simpl.
  - now rewrite app_nil_r.
  - simpl in Hu. apply andb_prop in Hu. destruct Hu as [Hne Hu].
    apply negb_true_iff in Hne.
    rewrite fold_left_app.
    destruct (block e) as [|eo rest] eqn:Eb.
    + simpl. apply IH; auto.
      intros kg Hkg e' eo' He'. apply Hnew; auto. now right.
    + rewrite group_block.
      * rewrite IH; auto.
        -- now rewrite <- app_assoc.
        -- intros kg Hkg e' eo' He' Heo'.
           apply in_app_or in Hkg. destruct Hkg as [Hkg|[<-|[]]].
           ++ apply Hnew with e'; auto. now right.
           ++ simpl. destruct (Sql.same (key eo) (key eo')) eqn:Es; auto.
              assert (H1 : Sql.eqb (Sql.e_id e) (key eo) = true)
                by (apply block_key; rewrite Eb; now left).
              assert (H2 : Sql.eqb (Sql.e_id e') (key eo') = true)
                by now apply block_key.
              assert (H3 : Sql.eqb (Sql.e_id e) (key eo') = true)
                by (apply same_eqb_left with (key eo); auto).
              assert (H4 : Sql.eqb (Sql.e_id e) (Sql.e_id e') = true).
              { apply eqb_trans with (key eo'); auto. now rewrite eqb_sym. }
              assert (existsb (Sql.eqb (Sql.e_id e)) (map Sql.e_id es) = true).
              { apply existsb_exists. exists (Sql.e_id e'). split; auto.
                now apply in_map. }
              congruence.
      * intros kg Hkg b Hb. apply Hnew with e; auto.
        -- now left.
        -- now rewrite Eb.
      * intros b Hb.
        apply eqb_same_via with (Sql.e_id e); rewrite eqb_sym;
          apply block_key; rewrite Eb; [now left | now right].
Qed.

Lemma count_block :
  forall e, Sql.count (map key (block e)) = Z.of_nat (length (orders_of db e)).
Proof.
  intros e. unfold Sql.count. f_equal.
  assert (H : forall l, (forall eo, In eo l -> Sql.eqb (Sql.e_id e) (key eo) = true) ->
                        length (filter (fun v => match v with
                                                 | Sql.NULL => false
                                                 | _ => true
                                                 end) (map key l)) = length l).
  { induction l as [|eo l IH]; intros Hl; simpl; auto.
    pose proof (Hl eo (or_introl eq_refl)) as Hk.
    destruct (key eo) eqn:Ek.
    - destruct (Sql.e_id e); discriminate.
    - simpl. f_equal. apply IH. intros; apply Hl; now right.
    - simpl. f_equal. apply IH. intros; apply Hl; now right. }
  rewrite H.
  - unfold block. now rewrite length_map.
  - apply block_key.
Qed.

Lemma rows_of_employee_groups :
  forall es : list Sql.EmployeeRow,
    flat_map (fun g : Sql.value * list (Sql.EmployeeRow * Sql.CustomerOrderRow) =>
                match snd g with
                | [] => []
                | eo :: _ =>
                    [ {| employee := fst eo;
                         ordercount := Sql.count (map key (snd g)) |} ]
                end)
             (flat_map (fun e => match block e with
                                 | [] => []
                                 | eo :: _ => [(key eo, block e)]
                                 end) es)
    = flat_map (fun e => if (0 <? length (orders_of db e))%nat
                         then [ {| employee := e;
                                   ordercount := Z.of_nat (length (orders_of db e)) |} ]
                         else []) es.
Proof.
  induction es as [|e es IH]; [reflexivity|].
  cbn [flat_map]. rewrite flat_map_app, IH. f_equal.
  pose proof (count_block e) as Hc.
  unfold block in *.
  destruct (orders_of db e) as [|o os]; [reflexivity|].
  cbn [map flat_map snd fst app length Nat.ltb Nat.leb].
  cbn [map] in Hc. now rewrite Hc.
Qed.

(** With employee ids unique, [getAllEmployees] lists the employees
    that have orders, in table order, each with the number of its
    orders. *)
Lemma getAllEmployees_rows :
  Sql.unique_keys (map Sql.e_id (Sql.Employee db)) = true ->
  getAllEmployees db =
  flat_map (fun e => if (0 <? length (orders_of db e))%nat
                     then [ {| employee := e;
                               ordercount := Z.of_nat (length (orders_of db e)) |} ]
                     else []) (Sql.Employee db).
Proof.
  intros Hu. unfold getAllEmployees, Sql.group_by, Sql.inner_join.
  change (flat_map (fun a => map (fun b => (a, b))
                                 (filter (fun o => Sql.eqb (Sql.e_id a) (Sql.o_employeeid o))
                                         (Sql.CustomerOrder db)))
                   (Sql.Employee db))
    with (flat_map block (Sql.Employee db)).
  change (fun eo : Sql.EmployeeRow * Sql.CustomerOrderRow => Sql.o_employeeid (snd eo))
    with key.
  rewrite employee_groups; auto; [|intros kg []].
  cbn [app]. apply rows_of_employee_groups.
Qed.

End EmployeeFacts.

(* ================================================================== *)
(** * Further facts *)

Lemma Promise_all_resolved :
  forall (A : Type) (ps : list (outcome A)),
    forallb is_resolved ps = true -> exists l, Promise_all ps = Resolved l.
Proof.
  intros A ps. induction ps as [|[a|e] ps IH]; simpl; intros H.
  - eauto.
  - destruct (IH H) as [l ->]. eauto.
  - discriminate.
Qed.

Lemma Promise_all_not_resolved :
  forall (A : Type) (ps : list (outcome A)),
    forallb is_resolved ps = false ->
    exists e, Promise_all ps = Rejected e /\ In (Rejected e) ps.
Proof.
  intros A ps. induction ps as [|[a|e] ps IH]; simpl; intros H.
  - discriminate.
  - destruct (IH H) as [e [-> Hin]]. eauto.
  - eauto.
Qed.

Lemma detail_inserts_no_commit :
  forall details orderid count,
    filter is_commit (detail_inserts orderid count details) = [].
Proof.
  induction details as [|d rest IH]; intros; simpl; auto.
Qed.

Lemma update_details_no_commit :
  forall details, filter is_commit (map update_detail details) = [].
Proof.
  induction details as [|d rest IH]; simpl; auto.
Qed.

Lemma run_all_length :
  forall (Conn : Type) (run : stmt -> Conn -> outcome (option RunResult) * Conn)
         ss c,
    length (fst (run_all run ss c)) = length ss.
Proof.
  intros Conn run ss. induction ss as [|s ss IH]; intros c; simpl; auto.
  destruct (run s c) as [a c']. specialize (IH c').
  destruct (run_all run ss c') as [answers c'']. simpl in *. now rewrite IH.
Qed.

Lemma to_int_normal :
  forall z, Z.to_int z <> Decimal.Pos Decimal.Nil /\ Z.to_int z <> Decimal.Neg Decimal.Nil.
Proof.
  intros z.
  assert (H : Z.to_int z = Decimal.norm (Z.to_int z)).
  { rewrite <- (DecimalZ.to_of (Z.to_int z)). now rewrite DecimalZ.of_to. }
  rewrite H. destruct (Z.to_int z) as [u|u]; simpl.
  - split; [|discriminate]. intros E. inversion E as [E'].
    now apply DecimalFacts.unorm_nonnil in E'.
  - destruct (Decimal.nzhead u) eqn:E; split; discriminate.
Qed.

(** Two numbers with the same decimal text are the same number. *)
Lemma ToString_number_inj :
  forall a b, Js.ToString (Js.number a) = Js.ToString (Js.number b) -> a = b.
Proof.
  intros a b H. simpl in H.
  apply DecimalZ.to_int_inj.
  destruct (to_int_normal a) as [Ha1 Ha2], (to_int_normal b) as [Hb1 Hb2].
  pose proof (NilZero.isi (Z.to_int a) Ha1 Ha2) as Ia.
  pose proof (NilZero.isi (Z.to_int b) Hb1 Hb2) as Ib.
  rewrite H in Ia. rewrite Ia in Ib. now inversion Ib.
Qed.

Lemma append_inj_r :
  forall p a b : string, (p ++ a)%string = (p ++ b)%string -> a = b.
Proof.
  induction p as [|c p IH]; simpl; intros a b H; auto.
  inversion H. auto.
Qed.

Lemma detail_id_inj :
  forall orderid k k', detail_id orderid k = detail_id orderid k' -> k = k'.
Proof.
  intros orderid k k' H. unfold detail_id in H. inversion H as [H'].
  apply append_inj_r in H'. inversion H' as [H''].
  assert (Z.of_nat k = Z.of_nat k') by now apply ToString_number_inj.
  lia.
Qed.

Lemma NoDup_map_injective :
  forall (A B : Type) (f : A -> B) (l : list A),
    (forall x y, f x = f y -> x = y) -> NoDup l -> NoDup (map f l).
Proof.
  intros A B f l Hinj H. induction H as [|a l Hnin Hnd IH]; simpl; constructor; auto.
  intros Hin. apply in_map_iff in Hin. destruct Hin as [x [Hx Hin]].
  apply Hinj in Hx. now subst.
Qed.

Section WindowFacts.

Context {A : Type}.

Lemma In_firstn : forall n (l : list A) x, In x (firstn n l) -> In x l.
Proof.
  induction n as [|n IH]; intros [|a l] x H; simpl in *; try contradiction.
  destruct H as [H|H]; auto.
Qed.

Lemma In_skipn : forall n (l : list A) x, In x (skipn n l) -> In x l.
Proof.
  induction n as [|n IH]; intros [|a l] x H; simpl in *; auto.
Qed.

Lemma In_limit_offset :
  forall limit offset (l : list A) x,
    In x (Sql.limit_offset limit offset l) -> In x l.
Proof.
  intros limit offset l x H. unfold Sql.limit_offset in H.
  destruct (limit <? 0).
  - eapply In_skipn; eauto.
  - eapply In_skipn. eapply In_firstn. eauto.
Qed.


Variable R : A -> A -> Prop.

Lemma Sorted_skipn :
  forall n (l : list A), Sorted R l -> Sorted R (skipn n l).
Proof.
  induction n as [|n IH]; intros l H; simpl; auto.
  destruct l as [|a l]; auto.
  apply IH. now inversion H.
Qed.

Lemma Sorted_firstn :
  forall n (l : list A), Sorted R l -> Sorted R (firstn n l).
Proof.
  induction n as [|n IH]; intros l H; simpl.
  - constructor.
  - destruct l as [|a l]; [constructor|].
    inversion H as [|? ? Hs Hhd]; subst.
    constructor; [now apply IH|].
    destruct n, l; simpl; constructor. now inversion Hhd.
Qed.

Lemma Sorted_limit_offset :
  forall limit offset (l : list A),
    Sorted R l -> Sorted R (Sql.limit_offset limit offset l).
Proof.
  intros limit offset l H. unfold Sql.limit_offset.
  destruct (limit <? 0).
  - now apply Sorted_skipn.
  - apply Sorted_firstn. now apply Sorted_skipn.
Qed.

End WindowFacts.

Lemma limit_offset_map :
  forall (A B : Type) (f : A -> B) limit offset (l : list A),
    Sql.limit_offset limit offset (map f l) = map f (Sql.limit_offset limit offset l).
Proof.
  intros A B f limit offset l. unfold Sql.limit_offset.
  rewrite skipn_map. destruct (limit <? 0); auto. now rewrite firstn_map.
Qed.

Section JoinMembers.

Context {A B : Type}.
Variable on : A -> B -> bool.

(** A row of a left join pairs a left row with one of its matches,
    or with nothing when it has no match. *)
Lemma left_join_In :
  forall (l : list A) (r : list B) a b,
    In (a, b) (Sql.left_join on l r) ->
    In a l /\
    match b with
    | Some b' => In b' r /\ on a b' = true
    | None => filter (on a) r = []
    end.
Proof.
  intros l r a b H. unfold Sql.left_join in H.
  apply in_flat_map in H. destruct H as [a' [Ha' H]].
  destruct (filter (on a') r) as [|m ms] eqn:E.
  - destruct H as [H|[]]. inversion H; subst. auto.
  - apply in_map_iff in H. destruct H as [b' [H Hin]].
    inversion H; subst. split; auto.
    rewrite <- E in Hin. apply filter_In in Hin. exact Hin.
Qed.

Lemma left_join_all :
  forall (l : list A) (r : list B) a b,
    In a l -> In b r -> on a b = true -> In (a, Some b) (Sql.left_join on l r).
Proof.
  intros l r a b Ha Hb Hon. unfold Sql.left_join.
  apply in_flat_map. exists a. split; auto.
  assert (Hin : In b (filter (on a) r)) by (apply filter_In; auto).
  destruct (filter (on a) r) as [|m ms]; [contradiction|].
  apply in_map_iff. eauto.
Qed.

Lemma left_join_unmatched :
  forall (l : list A) (r : list B) a,
    In a l -> filter (on a) r = [] -> In (a, None) (Sql.left_join on l r).
Proof.
  intros l r a Ha Hnone. unfold Sql.left_join.
  apply in_flat_map. exists a. split; auto. rewrite Hnone. now left.
Qed.

End JoinMembers.

Lemma orders_joined_In :
  forall db x, In x (orders_joined db) -> In (fst (fst x)) (Sql.CustomerOrder db).
Proof.
  intros db [[o c] e] H. unfold orders_joined in H.
  apply left_join_In in H. destruct H as [H _].
  apply left_join_In in H. tauto.
Qed.

Lemma filter_none :
  forall (A : Type) (P : A -> bool) (l : list A),
    filter P l = [] -> filter (fun a => negb (P a)) l = l.
Proof.
  intros A P l. induction l as [|a l IH]; simpl; auto.
  destruct (P a); simpl; [discriminate|]. intros H. now rewrite IH.
Qed.

Lemma Int_eqb_inj :
  forall v a b, Sql.eqb v (Sql.Int a) = true -> Sql.eqb v (Sql.Int b) = true -> a = b.
Proof.
  intros v a b Ha Hb.
  assert (H : Sql.eqb (Sql.Int a) (Sql.Int b) = true).
  { apply eqb_trans with v; auto. now rewrite eqb_sym. }
  simpl in H. apply Qeq_bool_eq in H. now apply inject_Z_injective.
Qed.

(** The rows of a listing that reads as written are listings of rows
    that the [WHERE] clause keeps, sorted as requested. *)
Lemma getAllOrders_joined_rows :
  forall db opts customerId col rows,
    column (sort (spread DEFAULT_ORDER_COLLECTION_OPTIONS opts)) = Some col ->
    getAllOrders opts customerId db = Resolved rows ->
    exists joined,
      rows = map listing_row joined /\
      (forall x, In x joined -> In x (selected_rows customerId db)) /\
      Sorted (fun a b =>
                in_order (order (spread DEFAULT_ORDER_COLLECTION_OPTIONS opts))
                         (col (fst (fst a))) (col (fst (fst b))) = true)
             joined.
Proof.
  intros db opts customerId col rows Hcol Hrows.
  rewrite (proj2 (listing_as_written db opts customerId col Hcol)) in Hrows.
  rewrite limit_offset_map in Hrows. inversion Hrows; subst; clear Hrows.
  eexists. split; [reflexivity|]. split.
  - intros x Hx. apply In_limit_offset in Hx. now apply order_by_In in Hx.
  - apply Sorted_limit_offset. apply listing_sorted.
Qed.

Lemma selected_rows_In :
  forall customerId db x,
    In x (selected_rows customerId db) -> In (fst (fst x)) (Sql.CustomerOrder db).
Proof.
  intros customerId db x H. unfold selected_rows in H.
  apply orders_joined_In.
  destruct (Js.truthy customerId); auto. apply filter_In in H. tauto.
Qed.

(** Whatever the sort text, the rows of a statement with a customer
    literal have that customer id. *)
Lemma ordered_rows_of_customer :
  forall q db s rows r,
    whereClause q = WhereCustomerId s ->
    ordered_rows q db = Resolved rows ->
    In r rows -> l_customerid r = Sql.Text s.
Proof.
  intros q db s rows r Hw Hrows Hin. unfold ordered_rows in Hrows.
  rewrite Hw in Hrows.
  destruct (column (order_by_column q)) as [col|]; [|discriminate].
  inversion Hrows; subst; clear Hrows.
  apply in_map_iff in Hin. destruct Hin as [[[o c] e] [<- Hin]].
  apply order_by_In in Hin. apply filter_In in Hin. destruct Hin as [_ Heq].
  simpl in *. destruct (Sql.o_customerid o); try discriminate.
  simpl in Heq. apply String.eqb_eq in Heq. now subst.
Qed.

Section GroupMembers.

Context {A : Type}.
Variable key : A -> Sql.value.

Lemma group_insert_members :
  forall a (groups : list (Sql.value * list A)) kg x,
    In kg (Sql.group_insert key a groups) -> In x (snd kg) ->
    x = a \/ exists kg', In kg' groups /\ In x (snd kg').
Proof.
  induction groups as [|[k g] groups IH]; intros kg x Hkg Hx; simpl in Hkg.
  - destruct Hkg as [<-|[]]. simpl in Hx. destruct Hx as [<-|[]]. now left.
  - destruct (Sql.same k (key a)).
    + destruct Hkg as [<-|Hkg].
      * simpl in Hx. apply in_app_or in Hx. destruct Hx as [Hx|[<-|[]]]; auto.
        right. exists (k, g). split; [now left | assumption].
      * right. exists kg. split; [now right | assumption].
    + destruct Hkg as [<-|Hkg].
      * right. exists (k, g). split; [now left | assumption].
      * destruct (IH kg x Hkg Hx) as [->|[kg' [Hin Hx']]]; auto.
        right. exists kg'. split; [now right | assumption].
Qed.

(** Every member of a group is one of the grouped rows. *)
Lemma group_by_members :
  forall (l : list A) kg x,
    In kg (Sql.group_by key l) -> In x (snd kg) -> In x l.
Proof.
  intros l. unfold Sql.group_by.
  assert (H : forall (l' : list A) groups kg x,
             In kg (fold_left (fun groups a => Sql.group_insert key a groups)
                              l' groups) ->
             In x (snd kg) ->
             In x l' \/ exists kg', In kg' groups /\ In x (snd kg')).
  { induction l' as [|a l' IH]; intros groups kg x Hkg Hx; simpl in Hkg.
    - right. eauto.
    - destruct (IH _ kg x Hkg Hx) as [H|[kg' [Hin Hx']]].
      + left. now right.
      + destruct (group_insert_members a groups kg' x Hin Hx')
          as [->|H]; [left; now left | now right]. }
  intros kg x Hkg Hx.
  destruct (H l [] kg x Hkg Hx) as [Hin|[kg' [[] _]]]. exact Hin.
Qed.

End GroupMembers.

Lemma hd_error_filter :
  forall (A : Type) (P : A -> bool) (l : list A) x,
    hd_error (filter P l) = Some x -> In x l /\ P x = true.
Proof.
  intros A P l x H.
  destruct (filter P l) as [|y t] eqn:E; [discriminate|].
  inversion H; subst. apply filter_In. rewrite E. now left.
Qed.

Lemma eqb_not_NULL : forall a b, Sql.eqb a b = true -> b <> Sql.NULL.
Proof. intros [|x|s] [|y|t]; simpl; congruence. Qed.

Lemma updateOrder_try_commit_rejected :
  forall (Conn : Type) (run : stmt -> Conn -> outcome (option RunResult) * Conn)
         id (data : UpdateData) details c c' c'' log (h : option RunResult) l e,
    run (update_order id data) c = (Resolved h, c') ->
    Promise_all (fst (run_all run (map update_detail details) c')) = Resolved l ->
    run (Run COMMIT []) (snd (run_all run (map update_detail details) c'))
    = (Rejected e, c'') ->
    updateOrder_try run id data details (c, log) =
    (Rejected e,
     (c'', ((log ++ [update_order id data]) ++ map update_detail details)
             ++ [Run COMMIT []])).
Proof.
  intros Conn run id data details c c' c'' log h l e Hh Hp Hc.
  unfold updateOrder_try, bind, db_run, bind, dispatch, await.
  rewrite Hh. rewrite map_update_details_run. now rewrite Hp, Hc.
Qed.

(** C1 (as amended).  Once [BEGIN] has been accepted, whenever the try
    block of [createOrder] or of [updateOrder] fails with an error [e],
    whatever the cause, the operation dispatches exactly one [ROLLBACK],
    as its last statement, and then rejects with [e] itself when the
    [ROLLBACK] is accepted; when the [ROLLBACK] is itself rejected, the
    caller receives that rejection instead. *)
Theorem rollback_then_rethrow :
  forall (Conn : Type) (run : stmt -> Conn -> outcome (option RunResult) * Conn)
         c0 c1 (b : option RunResult),
    run (Run BEGIN []) c0 = (Resolved b, c1) ->
    (forall order details e c2 log,
        createOrder_try run order details (c1, [Run BEGIN []])
        = (Rejected e, (c2, log)) ->
        trace (createOrder run order details (c0, [])) = log ++ [Run ROLLBACK []] /\
        length (filter is_rollback (trace (createOrder run order details (c0, []))))
        = 1%nat /\
        result (createOrder run order details (c0, [])) =
        match fst (run (Run ROLLBACK []) c2) with
        | Resolved _ => Rejected e
        | Rejected e' => Rejected e'
        end) /\
    (forall id data details e c2 log,
        updateOrder_try run id data details (c1, [Run BEGIN []])
        = (Rejected e, (c2, log)) ->
        trace (updateOrder run id data details (c0, [])) = log ++ [Run ROLLBACK []] /\
        length (filter is_rollback (trace (updateOrder run id data details (c0, []))))
        = 1%nat /\
        result (updateOrder run id data details (c0, [])) =
        match fst (run (Run ROLLBACK []) c2) with
        | Resolved _ => Rejected e
        | Rejected e' => Rejected e'
        end).
Proof.
  intros Conn run c0 c1 b Hb. split.
  - intros order details e c2 log Hbody.
    unfold createOrder.
    rewrite (rollback_handler Conn run _ _ c0 c1 b e c2 log Hb Hbody).
    unfold trace, result. simpl.
    destruct (createOrder_try_log Conn run _ _ _ _ _ _ _ Hbody) as [ext [-> Hext]].
    repeat split. rewrite !filter_app, Hext. reflexivity.
  - intros id data details e c2 log Hbody.
    unfold updateOrder.
    rewrite (rollback_handler Conn run _ _ c0 c1 b e c2 log Hb Hbody).
    unfold trace, result. simpl.
    destruct (updateOrder_try_log Conn run _ _ _ _ _ _ _ _ Hbody) as [ext [-> Hext]].
    repeat split. rewrite !filter_app, Hext. reflexivity.
Qed.

(** A run of each operation in which the second detail statement is
    refused and the [ROLLBACK] is accepted: the refusal reaches the
    caller. *)
Lemma rollback_then_rethrow_witness :
  result (createOrder constraint_run sample_order
            [sample_detail (Js.number 11); sample_detail Js.null] (6, []))
  = Rejected SQLITE_CONSTRAINT /\
  result (updateOrder constraint_run (Js.number 7) sample_order
            [sample_detail (Js.number 11); sample_detail Js.null] (6, []))
  = Rejected SQLITE_CONSTRAINT.
Proof.
  destruct (rollback_then_rethrow Z constraint_run 6 6 _ eq_refl) as [Hc Hu].
  split.
  - exact (proj2 (proj2 (Hc sample_order
                            [sample_detail (Js.number 11); sample_detail Js.null]
                            SQLITE_CONSTRAINT _ _ eq_refl))).
  - exact (proj2 (proj2 (Hu (Js.number 7) sample_order
                            [sample_detail (Js.number 11); sample_detail Js.null]
                            SQLITE_CONSTRAINT _ _ eq_refl))).
Defined.

(** C1 as stated fails: on a full disk the header insert is refused
    with [SQLITE_FULL], which the try block raises; the [ROLLBACK] is
    refused too, and the caller receives that second error instead of
    the first. *)
Lemma rollback_rejected_counterexample :
  createOrder_try full_disk_run sample_order [] (tt, [Run BEGIN []]) =
    (Rejected SQLITE_FULL, (tt, [Run BEGIN []; insert_order sample_order])) /\
  result (createOrder full_disk_run sample_order [] (tt, [])) =
    Rejected SQLITE_NO_TRANSACTION /\
  ~ always_rethrows_original.
Proof.
  split; [reflexivity|]. split; [reflexivity|].
  intro H.
  destruct (H unit full_disk_run sample_order [] tt tt None SQLITE_FULL
              (tt, [Run BEGIN []; insert_order sample_order])
              eq_refl eq_refl) as [_ Hres].
  vm_compute in Hres. discriminate Hres.
Qed.

(** C2.  When the header insert yields the id [orderid], the detail
    inserts that [createOrder] dispatches are, in input order, one per
    entry, the k-th one (counting from 1) binding the id
    ["<orderid>/<k>"] together with that entry's fields; the ids are
    fixed by [orderid] and the position alone, whatever the handle
    answers to any of the inserts. *)
Theorem createOrder_detail_ids :
  forall (Conn : Type) (run : stmt -> Conn -> outcome (option RunResult) * Conn)
         order details c0 c1 c2 (b : option RunResult) r,
    run (Run BEGIN []) c0 = (Resolved b, c1) ->
    run (insert_order order) c1 = (Resolved (Some r), c2) ->
    Js.truthy (lastID r) = true ->
    let orderid := lastID r in
    let log := trace (createOrder run order details (c0, [])) in
    filter is_detail_insert log =
      map (fun kd => insert_detail orderid (Z.of_nat (fst kd)) (snd kd))
          (combine (seq 1 (length details)) details) /\
    map first_param (filter is_detail_insert log) =
      map (fun k => Some (detail_id orderid k)) (seq 1 (length details)) /\
    (forall k detail,
        nth_error details k = Some detail ->
        nth_error log (2 + k) =
        Some (insert_detail orderid (Z.of_nat (k + 1)) detail)).
Proof.
  intros Conn run order details c0 c1 c2 b r Hb Hh Ht orderid log.
  destruct (createOrder_log_with_id Conn run order details c0 c1 c2 b r Hb Hh Ht)
    as [tail [Hlog Htail]].
  fold log in Hlog. fold orderid in Hlog.
  assert (Hf : filter is_detail_insert log = detail_inserts orderid 1 details).
  { rewrite Hlog. simpl. rewrite filter_app, Htail, app_nil_r.
    apply detail_inserts_all_inserts. }
  repeat split.
  - rewrite Hf. apply (detail_inserts_seq details orderid 1).
  - rewrite Hf. apply (detail_inserts_ids details orderid 1).
  - intros k detail Hk. rewrite Hlog. simpl.
    pose proof (detail_inserts_nth details orderid 1 k detail Hk) as Hn.
    change (Z.of_nat 1) with 1 in Hn.
    rewrite nth_error_app1.
    + rewrite Hn. do 3 f_equal. lia.
    + apply nth_error_Some. rewrite Hn. discriminate.
Qed.

(** Three entries, the second refused by the handle: the ids are
    ["7/1"], ["7/2"], ["7/3"] all the same. *)
Lemma createOrder_detail_ids_witness :
  map first_param
      (filter is_detail_insert
         (trace (createOrder constraint_run sample_order
                   [sample_detail (Js.number 11); sample_detail Js.null;
                    sample_detail (Js.number 42)] (6, []))))
  = [Some (Js.str "7/1"); Some (Js.str "7/2"); Some (Js.str "7/3")].
Proof.
  exact (proj1 (proj2
    (createOrder_detail_ids Z constraint_run sample_order
       [sample_detail (Js.number 11); sample_detail Js.null;
        sample_detail (Js.number 42)]
       6 6 7 _ _ eq_refl eq_refl eq_refl))).
Defined.

(** C5.  When the header insert resolves with no result or with a
    result whose [lastID] is falsy, the try block of [createOrder]
    raises the insertion error straight after the header insert; the
    whole call dispatches [BEGIN], the header insert and [ROLLBACK] and
    no detail insert, and the insertion error is what the caller
    receives once the [ROLLBACK] is accepted. *)
Theorem createOrder_no_id_raises_before_details :
  forall (Conn : Type) (run : stmt -> Conn -> outcome (option RunResult) * Conn)
         order details c0 c1 c2 (b : option RunResult) h,
    run (Run BEGIN []) c0 = (Resolved b, c1) ->
    run (insert_order order) c1 = (Resolved h, c2) ->
    no_generated_id h = true ->
    createOrder_try run order details (c1, [Run BEGIN []]) =
      (Rejected InsertionError, (c2, [Run BEGIN []; insert_order order])) /\
    trace (createOrder run order details (c0, [])) =
      [Run BEGIN []; insert_order order; Run ROLLBACK []] /\
    filter is_detail_insert (trace (createOrder run order details (c0, []))) = [] /\
    result (createOrder run order details (c0, [])) =
      match fst (run (Run ROLLBACK []) c2) with
      | Resolved _ => Rejected InsertionError
      | Rejected e' => Rejected e'
      end.
Proof.
  intros Conn run order details c0 c1 c2 b h Hb Hh Hn.
  assert (Hbody : createOrder_try run order details (c1, [Run BEGIN []]) =
                  (Rejected InsertionError, (c2, [Run BEGIN []; insert_order order]))).
  { unfold createOrder_try, bind, db_run, bind, dispatch, await. simpl.
    rewrite Hh, Hn. reflexivity. }
  split; [exact Hbody|].
  unfold createOrder.
  rewrite (rollback_handler Conn run _ _ c0 c1 b _ c2 _ Hb Hbody).
  unfold trace, result. simpl. repeat split.
Qed.

(** A header insert answering [lastID = 0], with two detail entries
    waiting: the caller gets the insertion error and no detail insert
    was dispatched. *)
Lemma createOrder_no_id_witness :
  result (createOrder no_id_run sample_order
            [sample_detail (Js.number 11); sample_detail (Js.number 42)] (tt, []))
  = Rejected InsertionError /\
  filter is_detail_insert
    (trace (createOrder no_id_run sample_order
              [sample_detail (Js.number 11); sample_detail (Js.number 42)] (tt, [])))
  = [].
Proof.
  pose proof (createOrder_no_id_raises_before_details unit no_id_run sample_order
                [sample_detail (Js.number 11); sample_detail (Js.number 42)]
                tt tt tt _ _ eq_refl eq_refl eq_refl) as [_ [_ [Hd Hr]]].
  split; [exact Hr | exact Hd].
Defined.

(** C3.  [getOrder] yields no row exactly when no order row has the
    id, and otherwise one row; the [subtotal] of that row is [NULL]
    when the order has no line items, and otherwise equals the sum over
    its line items of [unitprice * quantity * (1 - discount)]. *)
Theorem getOrder_subtotal :
  forall id db,
    (getOrder id db = None <->
     forall o, In o (Sql.CustomerOrder db) -> Sql.eqb (Sql.o_id o) (order_id id) = false) /\
    (forall r,
        getOrder id db = Some r ->
        match line_items id db with
        | [] => r_subtotal r = None
        | items => exists q, r_subtotal r = Some q /\ (q == spec_subtotal items)%Q
        end).
Proof.
  intros id db. rewrite getOrder_first. split.
  - destruct (filter (fun o => Sql.eqb (Sql.o_id o) (order_id id)) (Sql.CustomerOrder db))
      as [|o rest] eqn:E.
    + split; auto. intros _ o Ho.
      destruct (Sql.eqb (Sql.o_id o) (order_id id)) eqn:Eo; auto.
      assert (In o []) by (rewrite <- E; apply filter_In; auto). contradiction.
    + split; [discriminate|]. intros H.
      assert (Ho : In o (o :: rest)) by now left.
      rewrite <- E in Ho. apply filter_In in Ho. destruct Ho as [Hin Ho].
      rewrite (H o Hin) in Ho. discriminate.
  - intros r Hr.
    destruct (filter (fun o => Sql.eqb (Sql.o_id o) (order_id id)) (Sql.CustomerOrder db))
      as [|o rest]; [discriminate|].
    inversion Hr; subst; clear Hr. simpl.
    rewrite subtotal_subquery_sum.
    destruct (line_items id db) as [|d items]; [reflexivity|].
    apply sum_spec_subtotal.
Qed.

(** Order 1 of the sample has the line items (10, 2, 0.1) and
    (5, 1, 0): its subtotal is 23. *)
Lemma getOrder_subtotal_witness :
  exists r q,
    getOrder 1 sample_db = Some r /\ r_subtotal r = Some q /\ (q == 23)%Q.
Proof.
  destruct (getOrder 1 sample_db) as [r|] eqn:E; [|discriminate E].
  pose proof (proj2 (getOrder_subtotal 1 sample_db) r E) as H.
  destruct H as [q [Hq Heq]].
  exists r, q. split; [reflexivity|]. split; [exact Hq|].
  rewrite Heq. reflexivity.
Defined.

(** C6.  With product ids unique, [getOrderDetails] returns one row per
    line item of the order, in insertion order, each carrying
    [price = unitprice * quantity] and the name of the product that the
    line item refers to. *)
Theorem getOrderDetails_in_insertion_order :
  forall id db,
    Sql.unique_keys (map Sql.p_id (Sql.Product db)) = true ->
    getOrderDetails id db =
    map (fun d =>
           {| i_id := Sql.d_id d;
              i_price := (Sql.d_unitprice d * Sql.d_quantity d)%Q;
              i_productname := productname (product_of db d);
              i_unitprice := Sql.d_unitprice d;
              i_quantity := Sql.d_quantity d;
              i_discount := Sql.d_discount d |})
        (line_items id db).
Proof.
  intros id db Hu. now rewrite getOrderDetails_rows.
Qed.

(** The two line items of order 1, which were inserted around a line
    item of order 2. *)
Lemma getOrderDetails_witness :
  map i_id (getOrderDetails 1 sample_db) = [Sql.Text "1/1"; Sql.Text "1/2"] /\
  map i_price (getOrderDetails 1 sample_db) = [(10 * 2)%Q; (5 * 1)%Q] /\
  map i_productname (getOrderDetails 1 sample_db) =
    [Some "Queso Cabrales"; Some "Singaporean Hokkien Fried Mee"].
Proof.
  rewrite (getOrderDetails_in_insertion_order 1 sample_db eq_refl).
  repeat split.
Defined.

(** C7.  [deleteOrder] removes the order rows with the id and nothing
    else: the other order rows and the four other tables, the line
    items among them, are as before; afterwards [getOrder] finds no row
    for the id and [getOrderDetails] returns what it returned before. *)
Theorem deleteOrder_keeps_line_items :
  forall id db,
    Sql.CustomerOrder (snd (deleteOrder id db)) =
      filter (fun o => negb (Sql.eqb (Sql.o_id o) (order_id id))) (Sql.CustomerOrder db) /\
    Sql.OrderDetail (snd (deleteOrder id db)) = Sql.OrderDetail db /\
    Sql.Customer (snd (deleteOrder id db)) = Sql.Customer db /\
    Sql.Employee (snd (deleteOrder id db)) = Sql.Employee db /\
    Sql.Product (snd (deleteOrder id db)) = Sql.Product db /\
    getOrder id (snd (deleteOrder id db)) = None /\
    getOrderDetails id (snd (deleteOrder id db)) = getOrderDetails id db.
Proof.
  intros id db. repeat split.
  rewrite getOrder_first. simpl.
  now rewrite (filter_twice_negb _ (fun o => Sql.eqb (Sql.o_id o) (order_id id))).
Qed.

(** C10.  The [customerid] and [employeeid] of the row that [getOrder]
    returns are read from the joined customer and employee rows, not
    from the order row.  When a customer (employee) row matches the id
    stored in the order, the field is the id of the first such row of
    the table, a row that the stored id matches; when none matches,
    the field is [NULL], whatever the order row stores. *)
Theorem getOrder_ids_from_joined_rows :
  forall id db r,
    getOrder id db = Some r ->
    exists o,
      hd_error (filter (fun o => Sql.eqb (Sql.o_id o) (order_id id))
                       (Sql.CustomerOrder db)) = Some o /\
      r_customerid r =
        match filter (fun c => Sql.eqb (Sql.o_customerid o) (Sql.c_id c))
                     (Sql.Customer db) with
        | [] => Sql.NULL
        | c :: _ => Sql.c_id c
        end /\
      r_employeeid r =
        match filter (fun e => Sql.eqb (Sql.o_employeeid o) (Sql.e_id e))
                     (Sql.Employee db) with
        | [] => Sql.NULL
        | e :: _ => Sql.e_id e
        end /\
      (forall c, In c (Sql.Customer db) ->
                 Sql.eqb (Sql.o_customerid o) (Sql.c_id c) = true ->
                 exists c', In c' (Sql.Customer db) /\
                            Sql.eqb (Sql.o_customerid o) (Sql.c_id c') = true /\
                            r_customerid r = Sql.c_id c' /\
                            r_customername r = Some (Sql.c_contactname c')) /\
      (forall e, In e (Sql.Employee db) ->
                 Sql.eqb (Sql.o_employeeid o) (Sql.e_id e) = true ->
                 exists e', In e' (Sql.Employee db) /\
                            Sql.eqb (Sql.o_employeeid o) (Sql.e_id e') = true /\
                            r_employeeid r = Sql.e_id e') /\
      ((forall c, In c (Sql.Customer db) ->
                  Sql.eqb (Sql.o_customerid o) (Sql.c_id c) = false) ->
       r_customerid r = Sql.NULL) /\
      ((forall e, In e (Sql.Employee db) ->
                  Sql.eqb (Sql.o_employeeid o) (Sql.e_id e) = false) ->
       r_employeeid r = Sql.NULL).
Proof.
  intros id db r Hr. rewrite getOrder_first in Hr.
  destruct (filter (fun o => Sql.eqb (Sql.o_id o) (order_id id)) (Sql.CustomerOrder db))
    as [|o rest]; [discriminate|].
  inversion Hr; subst; clear Hr. exists o. cbn [hd_error r_customerid r_employeeid
                                                r_customername].
  assert (Hnone : forall (T : Type) (P : T -> bool) (l : list T),
             (forall x, In x l -> P x = false) -> filter P l = []).
  { intros T P l H. induction l as [|x l IH]; simpl; auto.
    rewrite (H x (or_introl eq_refl)). apply IH. intros; apply H; now right. }
  assert (Hsome : forall (T : Type) (P : T -> bool) (l : list T) x,
             In x l -> P x = true ->
             exists y ys, filter P l = y :: ys /\ In y l /\ P y = true).
  { intros T P l x Hin Hx.
    assert (Hf : In x (filter P l)) by (apply filter_In; now split).
    destruct (filter P l) as [|y ys] eqn:E; [contradiction|].
    exists y, ys. split; [reflexivity|].
    assert (Hy : In y (filter P l)) by (rewrite E; now left).
    now apply filter_In in Hy. }
  split; [reflexivity|].
  split; [now destruct (filter _ (Sql.Customer db))|].
  split; [now destruct (filter _ (Sql.Employee db))|].
  split; [|split; [|split]].
  - intros c Hin Hc.
    destruct (Hsome _ (fun c => Sql.eqb (Sql.o_customerid o) (Sql.c_id c))
                    _ c Hin Hc) as [y [ys [E [Hy Hp]]]].
    exists y. rewrite E. now repeat split.
  - intros e Hin He.
    destruct (Hsome _ (fun e => Sql.eqb (Sql.o_employeeid o) (Sql.e_id e))
                    _ e Hin He) as [y [ys [E [Hy Hp]]]].
    exists y. rewrite E. now repeat split.
  - intros H. now rewrite Hnone.
  - intros H. now rewrite Hnone.
Qed.

(** Order 1 of the sample stores the customer ["ALFKI"] and the
    employee 1, which both exist: their ids come back.  Order 4 stores
    the customer ["GHOST"] and the employee 9, neither of which
    exists: both fields come back [NULL]. *)
Lemma getOrder_ids_witness :
  (exists r,
      getOrder 1 sample_db = Some r /\
      r_customerid r = Sql.Text "ALFKI" /\ r_employeeid r = Sql.Int 1) /\
  (exists r,
      getOrder 4 sample_db = Some r /\
      r_customerid r = Sql.NULL /\ r_employeeid r = Sql.NULL).
Proof.
  split.
  - destruct (getOrder 1 sample_db) as [r|] eqn:E; [|discriminate E].
    exists r. split; [reflexivity|].
    destruct (getOrder_ids_from_joined_rows 1 sample_db r E)
      as [o [Ho [Hc [He _]]]].
    vm_compute in Ho. inversion Ho; subst o; clear Ho.
    split; [exact Hc|exact He].
  - destruct (getOrder 4 sample_db) as [r|] eqn:E; [|discriminate E].
    exists r. split; [reflexivity|].
    destruct (getOrder_ids_from_joined_rows 4 sample_db r E)
      as [o [Ho [_ [_ [_ [_ [Hc He]]]]]]].
    vm_compute in Ho. inversion Ho; subst o; clear Ho.
    split.
    + apply Hc. intros c [<-|[<-|[]]]; reflexivity.
    + apply He. intros e [<-|[<-|[<-|[]]]]; reflexivity.
Defined.

(** C8.  With employee ids unique, [getAllEmployees] returns one row
    for each employee that has at least one order and none for the
    others; the row carries the employee and, as [ordercount], the
    number of that employee's orders. *)
Theorem getAllEmployees_only_with_orders :
  forall db,
    Sql.unique_keys (map Sql.e_id (Sql.Employee db)) = true ->
    getAllEmployees db =
      flat_map (fun e => if (0 <? length (orders_of db e))%nat
                         then [ {| employee := e;
                                   ordercount := Z.of_nat (length (orders_of db e)) |} ]
                         else []) (Sql.Employee db) /\
    (forall e n,
        In {| employee := e; ordercount := n |} (getAllEmployees db) <->
        In e (Sql.Employee db) /\ orders_of db e <> [] /\
        n = Z.of_nat (length (orders_of db e))) /\
    (forall e n,
        orders_of db e = [] ->
        ~ In {| employee := e; ordercount := n |} (getAllEmployees db)).
Proof.
  intros db Hu. pose proof (getAllEmployees_rows db Hu) as Hrows.
  assert (Hiff : forall e n,
             In {| employee := e; ordercount := n |} (getAllEmployees db) <->
             In e (Sql.Employee db) /\ orders_of db e <> [] /\
             n = Z.of_nat (length (orders_of db e))).
  { intros e n. rewrite Hrows, in_flat_map. split.
    - intros [e' [Hin Hrow]].
      destruct (orders_of db e') as [|o os] eqn:Eo; simpl in Hrow; [contradiction|].
      destruct Hrow as [Hrow|[]]. inversion Hrow; subst.
      rewrite Eo. repeat split; auto. discriminate.
    - intros [Hin [Hne ->]]. exists e. split; auto.
      destruct (orders_of db e) as [|o os]; [contradiction|]. simpl. now left. }
  split; [exact Hrows|]. split; [exact Hiff|].
  intros e n He Hin. apply Hiff in Hin. tauto.
Qed.

(** In the sample, two employees have orders (two and one) and the
    third has none. *)
Lemma getAllEmployees_witness :
  map (fun r => (Sql.e_id (employee r), ordercount r)) (getAllEmployees sample_db)
  = [(Sql.Int 1, 2); (Sql.Int 2, 1)].
Proof.
  rewrite (proj1 (getAllEmployees_only_with_orders sample_db eq_refl)).
  reflexivity.
Defined.




(** C9.  When the customer id is falsy, the statement of [getAllOrders]
    has no [WHERE] clause and the result is that of the call without a
    customer id; [getCustomerOrders] with the empty string is therefore
    the listing of [getAllOrders] under the customer-listing defaults,
    and before [LIMIT] that listing has a row for every order of every
    customer. *)
Theorem falsy_customer_id_is_not_filtered :
  forall db opts customerId,
    Js.truthy customerId = false ->
    whereClause (getAllOrders_statement opts customerId) = NoWhere /\
    getAllOrders opts customerId db = getAllOrders opts Js.undefined db /\
    getCustomerOrders (Js.str "") opts db =
      getAllOrders (as_partial (spread DEFAULT_CUSTOMER_ORDER_COLLECTION_OPTIONS opts))
                   Js.undefined db /\
    match ordered_rows (getAllOrders_statement opts customerId) db with
    | Resolved rows =>
        forall o, In o (Sql.CustomerOrder db) ->
                  exists r, In r rows /\ l_id r = Sql.o_id o /\
                            l_customerid r = Sql.o_customerid o
    | Rejected _ =>
        column (sort (spread DEFAULT_ORDER_COLLECTION_OPTIONS opts)) = None
    end.
Proof.
  intros db opts customerId Hf.
  assert (Hs : getAllOrders_statement opts customerId =
               getAllOrders_statement opts Js.undefined).
  { unfold getAllOrders_statement. now rewrite Hf. }
  split; [now rewrite Hs|]. split; [unfold getAllOrders; now rewrite Hs|].
  split; [reflexivity|].
  rewrite Hs. unfold ordered_rows.
  change (order_by_column (getAllOrders_statement opts Js.undefined))
    with (sort (spread DEFAULT_ORDER_COLLECTION_OPTIONS opts)).
  change (whereClause (getAllOrders_statement opts Js.undefined)) with NoWhere.
  destruct (column (sort (spread DEFAULT_ORDER_COLLECTION_OPTIONS opts)))
    as [col|]; [|reflexivity].
  intros o Ho. unfold orders_joined.
  destruct (left_join_covers (fun o c => Sql.eqb (Sql.o_customerid o) (Sql.c_id c))
                             (Sql.CustomerOrder db) (Sql.Customer db) o Ho) as [c Hc].
  destruct (left_join_covers
              (fun (oc : Sql.CustomerOrderRow * option Sql.CustomerRow) e =>
                 Sql.eqb (Sql.o_employeeid (fst oc)) (Sql.e_id e))
              _ (Sql.Employee db) (o, c) Hc) as [em He].
  exists (listing_row (o, c, em)). split; [|split; reflexivity].
  apply in_map. apply order_by_In. exact He.
Qed.

(** The empty customer id on the sample: the orders of every customer
    come back, by shipping date. *)
Lemma falsy_customer_id_witness :
  exists rows,
    getCustomerOrders (Js.str "") Partial.empty sample_db = Resolved rows /\
    map l_customerid rows =
      [Sql.Text "BONAP"; Sql.Text "ALFKI"; Sql.Text "ALFKI"; Sql.Text "GHOST"].
Proof.
  pose proof (falsy_customer_id_is_not_filtered sample_db Partial.empty (Js.str "")
                eq_refl) as [_ [_ [H _]]].
  rewrite H. eexists. split; reflexivity.
Defined.

(* ================================================================== *)
(** * Further properties of the operations *)

(** X1.  When [BEGIN], the header insert (with a generated id), every
    detail insert and [COMMIT] are accepted, [createOrder] resolves
    with the generated id, having dispatched [BEGIN], the header
    insert, one insert per detail entry and [COMMIT], and no
    [ROLLBACK]. *)
Theorem createOrder_commits :
  forall (Conn : Type) (run : stmt -> Conn -> outcome (option RunResult) * Conn)
         order details c0 c1 c2 c3 (b m : option RunResult) r,
    run (Run BEGIN []) c0 = (Resolved b, c1) ->
    run (insert_order order) c1 = (Resolved (Some r), c2) ->
    Js.truthy (lastID r) = true ->
    forallb is_resolved
            (fst (run_all run (detail_inserts (lastID r) 1 details) c2)) = true ->
    run (Run COMMIT [])
        (snd (run_all run (detail_inserts (lastID r) 1 details) c2))
    = (Resolved m, c3) ->
    createOrder run order details (c0, []) =
      (Resolved (lastID r),
       (c3, [Run BEGIN []; insert_order order]
              ++ detail_inserts (lastID r) 1 details ++ [Run COMMIT []])) /\
    filter is_rollback (trace (createOrder run order details (c0, []))) = [].
Proof.
  intros Conn run order details c0 c1 c2 c3 b m r Hb Hh Ht Hall Hc.
  destruct (Promise_all_resolved _ _ Hall) as [l Hl].
  assert (E : createOrder run order details (c0, []) =
              (Resolved (lastID r),
               (c3, [Run BEGIN []; insert_order order]
                      ++ detail_inserts (lastID r) 1 details ++ [Run COMMIT []]))).
  { unfold createOrder, createOrder_try.
    unfold bind, db_run, bind, dispatch, await, try_catch. simpl.
    rewrite Hb, Hh. simpl. rewrite Ht. simpl.
    rewrite map_insert_details_run. rewrite Hl, Hc. unfold ret.
    now rewrite <- app_assoc. }
  split; [exact E|].
  rewrite E. unfold trace. simpl.
  now rewrite filter_app, detail_inserts_no_rollback.
Qed.

(** Two valid entries on the counting handle: the order gets id 7. *)
Lemma createOrder_commits_witness :
  result (createOrder constraint_run sample_order
            [sample_detail (Js.number 11); sample_detail (Js.number 42)] (6, []))
  = Resolved (Js.number 7).
Proof.
  exact (f_equal fst
    (proj1 (createOrder_commits Z constraint_run sample_order
              [sample_detail (Js.number 11); sample_detail (Js.number 42)]
              6 6 7 9 _ _ _ eq_refl eq_refl eq_refl eq_refl eq_refl))).
Defined.

(** X2.  When [BEGIN], the header update, every detail update and
    [COMMIT] are accepted, [updateOrder] resolves with the object
    [{ id, ...data }] built from its arguments, whatever the statements
    answered and without reading the order back: its header fields are
    those of [data], and its [id] is the [id] argument unless [data]
    carries an [id] of its own, which then replaces it.  The call
    dispatched [BEGIN], the header update (addressed by the [id]
    argument in either case), one update per detail entry in input
    order and [COMMIT], and no [ROLLBACK]. *)
Theorem updateOrder_commits :
  forall (Conn : Type) (run : stmt -> Conn -> outcome (option RunResult) * Conn)
         id (data : UpdateData) details c0 c1 c2 c3 (b h m : option RunResult),
    run (Run BEGIN []) c0 = (Resolved b, c1) ->
    run (update_order id data) c1 = (Resolved h, c2) ->
    forallb is_resolved (fst (run_all run (map update_detail details) c2)) = true ->
    run (Run COMMIT []) (snd (run_all run (map update_detail details) c2))
    = (Resolved m, c3) ->
    updateOrder run id data details (c0, []) =
      (Resolved (match own_id data with Some v => v | None => id end, header data),
       (c3, [Run BEGIN []; update_order id data]
              ++ map update_detail details ++ [Run COMMIT []])) /\
    last (params (update_order id data)) Js.undefined = id /\
    filter is_rollback (trace (updateOrder run id data details (c0, []))) = [].
Proof.
  intros Conn run id data details c0 c1 c2 c3 b h m Hb Hh Hall Hc.
  destruct (Promise_all_resolved _ _ Hall) as [l Hl].
  assert (E : updateOrder run id data details (c0, []) =
              (Resolved (match own_id data with Some v => v | None => id end,
                         header data),
               (c3, [Run BEGIN []; update_order id data]
                      ++ map update_detail details ++ [Run COMMIT []]))).
  { unfold updateOrder, updateOrder_try.
    unfold bind, db_run, bind, dispatch, await, try_catch. simpl.
    rewrite Hb, Hh. rewrite map_update_details_run. rewrite Hl, Hc. unfold ret.
    now rewrite <- app_assoc. }
  split; [exact E|]. split; [reflexivity|].
  rewrite E. unfold trace. simpl.
  now rewrite filter_app, update_details_no_rollback.
Qed.

(** An update of order 7 whose data carries the id 99: the header
    update is addressed to order 7 and the call resolves with id 99. *)
Lemma updateOrder_commits_witness :
  result (updateOrder constraint_run (Js.number 7)
            {| header := sample_order; own_id := Some (Js.number 99) |}
            [sample_detail (Js.number 11)] (6, []))
  = Resolved (Js.number 99, sample_order).
Proof.
  exact (f_equal fst
    (proj1 (updateOrder_commits Z constraint_run (Js.number 7)
              {| header := sample_order; own_id := Some (Js.number 99) |}
              [sample_detail (Js.number 11)]
              6 6 6 6 _ _ _ eq_refl eq_refl eq_refl eq_refl))).
Defined.

(** X3.  [BEGIN] is sent outside the try block: when it is refused,
    [createOrder] and [updateOrder] reject with that very error and
    dispatch nothing else, in particular no [ROLLBACK]. *)
Theorem begin_rejected_nothing_else :
  forall (Conn : Type) (run : stmt -> Conn -> outcome (option RunResult) * Conn)
         c0 c1 e,
    run (Run BEGIN []) c0 = (Rejected e, c1) ->
    (forall order details,
        createOrder run order details (c0, []) = (Rejected e, (c1, [Run BEGIN []]))) /\
    (forall id data details,
        updateOrder run id data details (c0, []) = (Rejected e, (c1, [Run BEGIN []]))).
Proof.
  intros Conn run c0 c1 e Hb. split; intros.
  - unfold createOrder, bind, db_run, bind, dispatch, await. simpl. now rewrite Hb.
  - unfold updateOrder, bind, db_run, bind, dispatch, await. simpl. now rewrite Hb.
Qed.

(** On a locked database both operations stop at [BEGIN]. *)
Lemma begin_rejected_witness :
  createOrder locked_run sample_order [sample_detail (Js.number 11)] (tt, [])
  = (Rejected SQLITE_BUSY, (tt, [Run BEGIN []])) /\
  updateOrder locked_run (Js.number 7) sample_order [] (tt, [])
  = (Rejected SQLITE_BUSY, (tt, [Run BEGIN []])).
Proof.
  destruct (begin_rejected_nothing_else unit locked_run tt tt SQLITE_BUSY eq_refl)
    as [Hc Hu].
  split; [apply Hc | apply Hu].
Defined.

(** X4.  When a detail insert of [createOrder] is refused, every
    detail insert has been dispatched all the same, [COMMIT] is never
    dispatched, [ROLLBACK] follows the last insert, and the error that
    reaches the caller is that of a refused insert (or of the
    [ROLLBACK], should it be refused too). *)
Theorem createOrder_detail_rejected_no_commit :
  forall (Conn : Type) (run : stmt -> Conn -> outcome (option RunResult) * Conn)
         order details c0 c1 c2 (b : option RunResult) r,
    run (Run BEGIN []) c0 = (Resolved b, c1) ->
    run (insert_order order) c1 = (Resolved (Some r), c2) ->
    Js.truthy (lastID r) = true ->
    forallb is_resolved
            (fst (run_all run (detail_inserts (lastID r) 1 details) c2)) = false ->
    trace (createOrder run order details (c0, [])) =
      [Run BEGIN []; insert_order order]
        ++ detail_inserts (lastID r) 1 details ++ [Run ROLLBACK []] /\
    filter is_commit (trace (createOrder run order details (c0, []))) = [] /\
    exists e,
      In (Rejected e) (fst (run_all run (detail_inserts (lastID r) 1 details) c2)) /\
      result (createOrder run order details (c0, [])) =
        match fst (run (Run ROLLBACK [])
                       (snd (run_all run (detail_inserts (lastID r) 1 details) c2))) with
        | Resolved _ => Rejected e
        | Rejected e' => Rejected e'
        end.
Proof.
  intros Conn run order details c0 c1 c2 b r Hb Hh Ht Hall.
  destruct (Promise_all_not_resolved _ _ Hall) as [e [Hp Hin]].
  pose proof (createOrder_try_detail_rejected Conn run order details c1 c2
                [Run BEGIN []] r e Hh Ht Hp) as Hbody.
  unfold createOrder.
  rewrite (rollback_handler Conn run _ _ c0 c1 b e _ _ Hb Hbody).
  unfold trace, result. simpl.
  split; [rewrite <- ?app_assoc; reflexivity|].
  split.
  - rewrite ?filter_app, detail_inserts_no_commit. reflexivity.
  - exists e. split; auto.
Qed.

(** Three entries, the second one refused: three inserts, then
    [ROLLBACK], and the refusal reaches the caller. *)
Lemma createOrder_detail_rejected_witness :
  map text (trace (createOrder constraint_run sample_order
                     [sample_detail (Js.number 11); sample_detail Js.null;
                      sample_detail (Js.number 42)] (6, [])))
  = [BEGIN; INSERT_CustomerOrder; INSERT_OrderDetail; INSERT_OrderDetail;
     INSERT_OrderDetail; ROLLBACK].
Proof.
  rewrite (proj1 (createOrder_detail_rejected_no_commit Z constraint_run sample_order
                    [sample_detail (Js.number 11); sample_detail Js.null;
                     sample_detail (Js.number 42)]
                    6 6 7 _ _ eq_refl eq_refl eq_refl eq_refl)).
  reflexivity.
Defined.

(** X5.  [updateOrder] sends one update per detail entry, in input
    order, each addressed by the entry's own [id]; when one of them is
    refused, all of them have been dispatched all the same, [COMMIT]
    is never dispatched and [ROLLBACK] comes last. *)
Theorem updateOrder_detail_rejected_no_commit :
  forall (Conn : Type) (run : stmt -> Conn -> outcome (option RunResult) * Conn)
         orderid data details c0 c1 c2 (b h : option RunResult),
    run (Run BEGIN []) c0 = (Resolved b, c1) ->
    run (update_order orderid data) c1 = (Resolved h, c2) ->
    forallb is_resolved (fst (run_all run (map update_detail details) c2)) = false ->
    trace (updateOrder run orderid data details (c0, [])) =
      [Run BEGIN []; update_order orderid data]
        ++ map update_detail details ++ [Run ROLLBACK []] /\
    map (fun s => last (params s) Js.undefined) (map update_detail details) =
      map id details /\
    filter is_commit (trace (updateOrder run orderid data details (c0, []))) = [] /\
    exists e,
      In (Rejected e) (fst (run_all run (map update_detail details) c2)) /\
      result (updateOrder run orderid data details (c0, [])) =
        match fst (run (Run ROLLBACK [])
                       (snd (run_all run (map update_detail details) c2))) with
        | Resolved _ => Rejected e
        | Rejected e' => Rejected e'
        end.
Proof.
  intros Conn run orderid data details c0 c1 c2 b h Hb Hh Hall.
  destruct (Promise_all_not_resolved _ _ Hall) as [e [Hp Hin]].
  pose proof (updateOrder_try_detail_rejected Conn run orderid data details c1 c2
                [Run BEGIN []] h e Hh Hp) as Hbody.
  unfold updateOrder.
  rewrite (rollback_handler Conn run _ _ c0 c1 b e _ _ Hb Hbody).
  unfold trace, result. simpl.
  split; [rewrite <- ?app_assoc; reflexivity|].
  split; [rewrite map_map; reflexivity|].
  split.
  - rewrite ?filter_app, update_details_no_commit. reflexivity.
  - exists e. split; auto.
Qed.

(** Two entries, the second without product: two updates, then
    [ROLLBACK]. *)
Lemma updateOrder_detail_rejected_witness :
  map text (trace (updateOrder constraint_run (Js.number 7) sample_order
                     [sample_detail (Js.number 11); sample_detail Js.null] (6, [])))
  = [BEGIN; UPDATE_CustomerOrder; UPDATE_OrderDetail; UPDATE_OrderDetail; ROLLBACK].
Proof.
  rewrite (proj1 (updateOrder_detail_rejected_no_commit Z constraint_run (Js.number 7)
                    sample_order
                    [sample_detail (Js.number 11); sample_detail Js.null]
                    6 6 6 _ _ eq_refl eq_refl eq_refl)).
  reflexivity.
Defined.

(** X6.  The ids that one [createOrder] call gives to its line items
    are pairwise distinct. *)
Theorem createOrder_detail_ids_distinct :
  forall (Conn : Type) (run : stmt -> Conn -> outcome (option RunResult) * Conn)
         order details c0 c1 c2 (b : option RunResult) r,
    run (Run BEGIN []) c0 = (Resolved b, c1) ->
    run (insert_order order) c1 = (Resolved (Some r), c2) ->
    Js.truthy (lastID r) = true ->
    NoDup (map first_param
               (filter is_detail_insert
                       (trace (createOrder run order details (c0, []))))).
Proof.
  intros Conn run order details c0 c1 c2 b r Hb Hh Ht.
  destruct (createOrder_log_with_id Conn run order details c0 c1 c2 b r Hb Hh Ht)
    as [tail [Hlog Htail]].
  rewrite Hlog. simpl.
  rewrite filter_app, Htail, app_nil_r, detail_inserts_all_inserts.
  pose proof (detail_inserts_ids details (lastID r) 1) as Hids.
  change (Z.of_nat 1) with 1 in Hids. rewrite Hids.
  apply NoDup_map_injective.
  - intros k k' H. apply (detail_id_inj (lastID r)). congruence.
  - apply seq_NoDup.
Qed.

(** Three line items of one order: three different ids. *)
Lemma createOrder_detail_ids_distinct_witness :
  NoDup (map first_param
             (filter is_detail_insert
                (trace (createOrder constraint_run sample_order
                          [sample_detail (Js.number 11); sample_detail (Js.number 11);
                           sample_detail (Js.number 42)] (6, []))))).
Proof.
  exact (createOrder_detail_ids_distinct Z constraint_run sample_order
           [sample_detail (Js.number 11); sample_detail (Js.number 11);
            sample_detail (Js.number 42)]
           6 6 7 _ _ eq_refl eq_refl eq_refl).
Defined.

(** X7.  [getOrderWithDetails] runs its two queries one after the
    other, each on the database as it then is, so the pair is not a
    single snapshot.  When the line items are the same at both queries
    (as they are when nothing is written in between, or when only
    [deleteOrder] takes effect in between) and product ids are unique,
    the pair agrees with itself: the order's [subtotal] is the sum
    over the returned items of [price * (1 - discount)], and it is
    [NULL] when no item is returned. *)
Theorem getOrderWithDetails_subtotal_of_items :
  forall id db db' r,
    Sql.unique_keys (map Sql.p_id (Sql.Product db')) = true ->
    Sql.OrderDetail db' = Sql.OrderDetail db ->
    fst (getOrderWithDetails id db db') = Some r ->
    match snd (getOrderWithDetails id db db') with
    | [] => r_subtotal r = None
    | items => exists q, r_subtotal r = Some q /\ (q == items_total items)%Q
    end.
Proof.
  intros id db db' r Hu Hd Hr.
  unfold getOrderWithDetails in *. simpl in *.
  rewrite getOrder_first in Hr.
  destruct (filter (fun o => Sql.eqb (Sql.o_id o) (order_id id)) (Sql.CustomerOrder db))
    as [|o rest]; [discriminate|].
  inversion Hr; subst; clear Hr. simpl.
  rewrite subtotal_subquery_sum, (getOrderDetails_rows id db' Hu).
  assert (Hl : line_items id db' = line_items id db)
    by (unfold line_items; now rewrite Hd).
  rewrite Hl.
  destruct (line_items id db) as [|d items]; [reflexivity|].
  eexists. split; [reflexivity|].
  rewrite fold_left_Qplus.
  assert (H : forall l,
             (fold_right Qplus 0
                         (map (fun d => Sql.d_unitprice d * Sql.d_quantity d
                                        * (1 - Sql.d_discount d)) l)
              == items_total (map (fun d => detail_record (d, product_of db' d)) l))%Q).
  { induction l as [|x l IH]; simpl; [reflexivity|]. now rewrite IH. }
  rewrite H, Qplus_0_l. reflexivity.
Qed.

(** Order 1 of the sample, deleted between the two queries: the order
    read first comes back with subtotal 23, the total of its two
    items, which are still there. *)
Lemma getOrderWithDetails_witness :
  exists r q,
    fst (getOrderWithDetails 1 sample_db (snd (deleteOrder 1 sample_db))) = Some r /\
    r_subtotal r = Some q /\
    (q == items_total
            (snd (getOrderWithDetails 1 sample_db (snd (deleteOrder 1 sample_db)))))%Q /\
    length (snd (getOrderWithDetails 1 sample_db (snd (deleteOrder 1 sample_db))))
    = 2%nat.
Proof.
  destruct (fst (getOrderWithDetails 1 sample_db (snd (deleteOrder 1 sample_db))))
    as [r|] eqn:E; [|discriminate E].
  pose proof (getOrderWithDetails_subtotal_of_items
                1 sample_db (snd (deleteOrder 1 sample_db)) r eq_refl eq_refl E)
    as H.
  destruct H as [q [Hq Heq]].
  exists r, q. split; [reflexivity|]. split; [exact Hq|]. split; [exact Heq|reflexivity].
Defined.

(** Without that condition the pair need not agree: when the line
    items of order 1 are written after the order was read, the order
    comes back with no subtotal beside its two items. *)
Lemma getOrderWithDetails_not_a_snapshot :
  exists r,
    fst (getOrderWithDetails 1
           {| Sql.Customer := Sql.Customer sample_db;
              Sql.Employee := Sql.Employee sample_db;
              Sql.CustomerOrder := Sql.CustomerOrder sample_db;
              Sql.OrderDetail := [];
              Sql.Product := Sql.Product sample_db |}
           sample_db) = Some r /\
    r_subtotal r = None /\
    length (snd (getOrderWithDetails 1
                   {| Sql.Customer := Sql.Customer sample_db;
                      Sql.Employee := Sql.Employee sample_db;
                      Sql.CustomerOrder := Sql.CustomerOrder sample_db;
                      Sql.OrderDetail := [];
                      Sql.Product := Sql.Product sample_db |}
                   sample_db)) = 2%nat.
Proof.
  eexists. split; [reflexivity|]. split; reflexivity.
Qed.

(** X8.  For a customer id that is a non-empty text without quote
    characters, every row that [getCustomerOrders] (and [getAllOrders]
    with that id) returns belongs to that customer. *)
Theorem getCustomerOrders_only_that_customer :
  forall db opts s,
    Js.truthy (Js.str s) = true ->
    quote_free s = true ->
    (forall rows r,
        getAllOrders opts (Js.str s) db = Resolved rows ->
        In r rows -> l_customerid r = Sql.Text s) /\
    (forall rows r,
        getCustomerOrders (Js.str s) opts db = Resolved rows ->
        In r rows -> l_customerid r = Sql.Text s).
Proof.
  intros db opts s Ht Hq.
  assert (Hall : forall opts' rows r,
             getAllOrders opts' (Js.str s) db = Resolved rows ->
             In r rows -> l_customerid r = Sql.Text s).
  { intros opts' rows r Hrows Hin.
    assert (Hw : whereClause (getAllOrders_statement opts' (Js.str s))
                 = WhereCustomerId s).
    { unfold getAllOrders_statement. cbn [whereClause]. now rewrite Ht. }
    unfold getAllOrders, all_orders in Hrows.
    destruct (ordered_rows (getAllOrders_statement opts' (Js.str s)) db)
      as [l|e] eqn:El.
    - inversion Hrows; subst; clear Hrows.
      apply In_limit_offset in Hin.
      eapply ordered_rows_of_customer; eauto.
    - destruct (comment_opener (order_by_column (getAllOrders_statement opts' (Js.str s))))
        as [name|]; [|discriminate].
      eapply ordered_rows_of_customer; [|exact Hrows|exact Hin]. exact Hw. }
  split; intros rows r Hrows Hin.
  - eapply Hall; eauto.
  - unfold getCustomerOrders in Hrows. eapply Hall; eauto.
Qed.

(** The customer ["ALFKI"] of the sample has the orders 3 and 1. *)
Lemma getCustomerOrders_witness :
  exists rows,
    getCustomerOrders (Js.str "ALFKI") Partial.empty sample_db = Resolved rows /\
    map l_id rows = [Sql.Int 3; Sql.Int 1] /\
    forall r, In r rows -> l_customerid r = Sql.Text "ALFKI".
Proof.
  destruct (getCustomerOrders (Js.str "ALFKI") Partial.empty sample_db)
    as [rows|] eqn:E; [|discriminate E].
  exists rows. split; [reflexivity|]. split.
  - vm_compute in E. inversion E. reflexivity.
  - intros r Hr.
    exact (proj2 (getCustomerOrders_only_that_customer sample_db Partial.empty "ALFKI"
                    eq_refl eq_refl) rows r E Hr).
Defined.





(** X11.  For a sort option that names a column, a customer id that
    is falsy or free of quote characters and exactly computed numbers,
    a page number of 1 or less selects the first page: the offset
    [(page - 1) * perPage] is then zero or negative, and a negative
    offset skips nothing.  In particular page 0 and page 1 return the
    same rows. *)
Theorem page_below_one_is_first_page :
  forall db opts customerId p n col,
    p <= 1 -> 0 <= n ->
    exact_numbers (spread DEFAULT_ORDER_COLLECTION_OPTIONS (page_of opts p n)) = true ->
    column (sort (spread DEFAULT_ORDER_COLLECTION_OPTIONS opts)) = Some col ->
    literal_customer_id customerId = true ->
    getAllOrders (page_of opts p n) customerId db =
    getAllOrders (page_of opts 1 n) customerId db.
Proof.
  intros db opts customerId p n col Hp Hn Hnum Hcol Hlit.
  rewrite (proj2 (listing_as_written db (page_of opts p n) customerId col Hcol)).
  rewrite (proj2 (listing_as_written db (page_of opts 1 n) customerId col Hcol)).
  f_equal. unfold Sql.limit_offset.
  change (limit (getAllOrders_statement (page_of opts p n) customerId)) with n.
  change (limit (getAllOrders_statement (page_of opts 1 n) customerId)) with n.
  change (offset (getAllOrders_statement (page_of opts p n) customerId))
    with ((p - 1) * n).
  change (offset (getAllOrders_statement (page_of opts 1 n) customerId))
    with ((1 - 1) * n).
  replace (Z.to_nat ((p - 1) * n)) with 0%nat by nia.
  replace (Z.to_nat ((1 - 1) * n)) with 0%nat by lia.
  reflexivity.
Qed.

(** Page 0 of the sample, two rows per page, is page 1. *)
Lemma page_below_one_witness :
  getAllOrders (page_of Partial.empty 0 2) Js.undefined sample_db =
  getAllOrders (page_of Partial.empty 1 2) Js.undefined sample_db.
Proof.
  exact (page_below_one_is_first_page sample_db Partial.empty Js.undefined 0 2 Sql.o_id
           ltac:(lia) ltac:(lia) eq_refl eq_refl eq_refl).
Defined.

(** X12.  [deleteOrder] leaves every other order as it was: for an id
    other than the deleted one, [getOrder] and [getOrderDetails] return
    what they returned before. *)
Theorem deleteOrder_other_orders_untouched :
  forall id id' db,
    id' <> id ->
    getOrder id' (snd (deleteOrder id db)) = getOrder id' db /\
    getOrderDetails id' (snd (deleteOrder id db)) = getOrderDetails id' db.
Proof.
  intros id id' db Hne. split; [|reflexivity].
  rewrite !getOrder_first. simpl.
  assert (Hf : filter (fun o => Sql.eqb (Sql.o_id o) (order_id id'))
                      (filter (fun o => negb (Sql.eqb (Sql.o_id o) (order_id id)))
                              (Sql.CustomerOrder db))
               = filter (fun o => Sql.eqb (Sql.o_id o) (order_id id'))
                        (Sql.CustomerOrder db)).
  { induction (Sql.CustomerOrder db) as [|o l IH]; simpl; auto.
    destruct (Sql.eqb (Sql.o_id o) (order_id id)) eqn:E; simpl.
    - destruct (Sql.eqb (Sql.o_id o) (order_id id')) eqn:E'; auto.
      exfalso. apply Hne. symmetry. now apply (Int_eqb_inj (Sql.o_id o)).
    - now rewrite IH. }
  rewrite Hf. reflexivity.
Qed.

(** Deleting order 1 of the sample leaves order 2 as it was. *)
Lemma deleteOrder_other_orders_witness :
  getOrder 2 (snd (deleteOrder 1 sample_db)) = getOrder 2 sample_db.
Proof.
  exact (proj1 (deleteOrder_other_orders_untouched 1 2 sample_db ltac:(lia))).
Defined.

(** X13.  Deleting an id that no order has changes nothing: zero rows
    are reported and the database is the same. *)
Theorem deleteOrder_absent_is_noop :
  forall id db,
    getOrder id db = None ->
    deleteOrder id db = (0, db).
Proof.
  intros id db H. rewrite getOrder_first in H.
  unfold deleteOrder, delete_CustomerOrder.
  destruct (filter (fun o => Sql.eqb (Sql.o_id o) (order_id id)) (Sql.CustomerOrder db))
    as [|o rest] eqn:E; [|discriminate].
  rewrite (filter_none _ _ _ E). destruct db; reflexivity.
Qed.

(** The sample has no order 7. *)
Lemma deleteOrder_absent_witness :
  deleteOrder 7 sample_db = (0, sample_db).
Proof.
  exact (deleteOrder_absent_is_noop 7 sample_db eq_refl).
Defined.


(** X15.  After [deleteOrder], no listing that [getAllOrders] returns
    for a sort option that names a column, exactly computed page
    numbers and a customer id that is falsy or free of quote
    characters contains a row with the deleted id. *)
Theorem deleteOrder_removes_from_listing :
  forall id db opts customerId col rows r,
    column (sort (spread DEFAULT_ORDER_COLLECTION_OPTIONS opts)) = Some col ->
    exact_numbers (spread DEFAULT_ORDER_COLLECTION_OPTIONS opts) = true ->
    literal_customer_id customerId = true ->
    getAllOrders opts customerId (snd (deleteOrder id db)) = Resolved rows ->
    In r rows ->
    Sql.eqb (l_id r) (order_id id) = false.
Proof.
  intros id db opts customerId col rows r Hcol Hnum Hlit Hrows Hin.
  destruct (getAllOrders_joined_rows _ _ _ _ _ Hcol Hrows)
    as [joined [-> [Hfrom _]]].
  apply in_map_iff in Hin. destruct Hin as [[[o c] e] [<- Hx]].
  apply Hfrom in Hx. apply selected_rows_In in Hx. simpl in Hx.
  apply filter_In in Hx. destruct Hx as [_ Hx].
  simpl. now apply negb_true_iff in Hx.
Qed.

(** After deleting order 1 of the sample, the listing holds the
    orders 2, 3 and 4. *)
Lemma deleteOrder_removes_from_listing_witness :
  exists rows,
    getAllOrders Partial.empty Js.undefined (snd (deleteOrder 1 sample_db))
    = Resolved rows /\
    map l_id rows = [Sql.Int 2; Sql.Int 3; Sql.Int 4] /\
    forall r, In r rows -> Sql.eqb (l_id r) (order_id 1) = false.
Proof.
  destruct (getAllOrders Partial.empty Js.undefined (snd (deleteOrder 1 sample_db)))
    as [rows|] eqn:E; [|discriminate E].
  exists rows. split; [reflexivity|]. split.
  - vm_compute in E. inversion E. reflexivity.
  - intros r Hr.
    exact (deleteOrder_removes_from_listing 1 sample_db Partial.empty Js.undefined
             Sql.o_id rows r eq_refl eq_refl eq_refl E Hr).
Defined.

(** X16.  With employee ids unique, [getEmployee] returns the employee
    row whose id is the one asked for. *)
Theorem getEmployee_finds_by_id :
  forall id db e,
    Sql.unique_keys (map Sql.e_id (Sql.Employee db)) = true ->
    In e (Sql.Employee db) ->
    Sql.eqb (Sql.e_id e) (Sql.Int id) = true ->
    getEmployee id db = Some e.
Proof.
  intros id db e Hu Hin Heq. unfold getEmployee, Sql.get.
  pose proof (unique_keys_one_match Sql.e_id (Sql.Employee db) (Sql.Int id) Hu) as Hone.
  assert (Hf : filter (fun a => Sql.eqb (Sql.Int id) (Sql.e_id a)) (Sql.Employee db)
               = filter (fun e0 => Sql.eqb (Sql.e_id e0) (Sql.Int id)) (Sql.Employee db)).
  { apply filter_ext. intros a. apply eqb_sym. }
  rewrite Hf in Hone.
  assert (He : In e (filter (fun e0 => Sql.eqb (Sql.e_id e0) (Sql.Int id))
                            (Sql.Employee db))) by (apply filter_In; auto).
  destruct (filter (fun e0 => Sql.eqb (Sql.e_id e0) (Sql.Int id)) (Sql.Employee db))
    as [|x [|y t]]; simpl in *.
  - contradiction.
  - destruct He as [->|[]]. reflexivity.
  - lia.
Qed.

(** Employee 2 of the sample. *)
Lemma getEmployee_witness :
  getEmployee 2 sample_db = Some (employee_row 2 "Andrew" "Fuller").
Proof.
  apply (getEmployee_finds_by_id 2 sample_db (employee_row 2 "Andrew" "Fuller") eq_refl).
  - right. left. reflexivity.
  - reflexivity.
Defined.

(** X17.  Whatever the tables hold, a row of [getAllEmployees] names
    an employee of the table that has at least one order, and its
    [ordercount] is at least 1. *)
Theorem getAllEmployees_rows_have_orders :
  forall db r,
    In r (getAllEmployees db) ->
    In (employee r) (Sql.Employee db) /\
    orders_of db (employee r) <> [] /\
    1 <= ordercount r.
Proof.
  intros db r Hr. unfold getAllEmployees in Hr.
  apply in_flat_map in Hr. destruct Hr as [[k g] [Hg Hr]].
  simpl in Hr. destruct g as [|eo rest]; [contradiction|].
  destruct Hr as [<-|[]]. simpl.
  assert (Heo : In eo (Sql.inner_join
                         (fun e o => Sql.eqb (Sql.e_id e) (Sql.o_employeeid o))
                         (Sql.Employee db) (Sql.CustomerOrder db))).
  { eapply group_by_members; [exact Hg | now left]. }
  unfold Sql.inner_join in Heo. apply in_flat_map in Heo.
  destruct Heo as [e [He Heo]]. apply in_map_iff in Heo.
  destruct Heo as [o [<- Ho]]. simpl.
  split; [exact He|]. split.
  - unfold orders_of. intros Hnil. rewrite Hnil in Ho. contradiction.
  - apply filter_In in Ho. destruct Ho as [_ Ho].
    apply eqb_not_NULL in Ho. unfold Sql.count. simpl.
    destruct (Sql.o_employeeid o); [contradiction| |]; simpl; lia.
Qed.

(** The first row of the sample's employee listing. *)
Lemma getAllEmployees_rows_witness :
  exists r,
    hd_error (getAllEmployees sample_db) = Some r /\
    Sql.e_id (employee r) = Sql.Int 1 /\ 1 <= ordercount r.
Proof.
  destruct (hd_error (getAllEmployees sample_db)) as [r|] eqn:E; [|discriminate E].
  exists r. split; [reflexivity|].
  assert (Hin : In r (getAllEmployees sample_db)).
  { destruct (getAllEmployees sample_db) as [|x t]; [discriminate E|].
    inversion E. now left. }
  split.
  - vm_compute in E. inversion E. reflexivity.
  - exact (proj2 (proj2 (getAllEmployees_rows_have_orders sample_db r Hin))).
Defined.

(** X18.  The row that [getOrder] returns is that of an order row with
    the requested id.  Its [customerid] and [customername] are either
    both [NULL], or the id and the contact name of a customer row that
    matches the customer id stored in the order; likewise its
    [employeeid] and [employeename], the name being the first name, a
    space and the last name. *)
Theorem getOrder_row_of_requested_order :
  forall id db r,
    getOrder id db = Some r ->
    exists o,
      In o (Sql.CustomerOrder db) /\
      Sql.eqb (Sql.o_id o) (order_id id) = true /\
      r_id r = Sql.o_id o /\
      ((r_customerid r = Sql.NULL /\ r_customername r = None) \/
       exists c, In c (Sql.Customer db) /\
                 Sql.eqb (Sql.o_customerid o) (Sql.c_id c) = true /\
                 r_customerid r = Sql.c_id c /\
                 r_customername r = Some (Sql.c_contactname c)) /\
      ((r_employeeid r = Sql.NULL /\ r_employeename r = None) \/
       exists e, In e (Sql.Employee db) /\
                 Sql.eqb (Sql.o_employeeid o) (Sql.e_id e) = true /\
                 r_employeeid r = Sql.e_id e /\
                 r_employeename r =
                   Some (Sql.e_firstname e ++ " " ++ Sql.e_lastname e)%string).
Proof.
  intros id db r Hr. rewrite getOrder_first in Hr.
  destruct (filter (fun o => Sql.eqb (Sql.o_id o) (order_id id)) (Sql.CustomerOrder db))
    as [|o rest] eqn:E; [discriminate|].
  inversion Hr; subst; clear Hr. exists o. simpl.
  assert (Ho : In o (filter (fun o => Sql.eqb (Sql.o_id o) (order_id id))
                            (Sql.CustomerOrder db))) by (rewrite E; now left).
  apply filter_In in Ho. destruct Ho as [Hin Hid].
  split; [exact Hin|]. split; [exact Hid|]. split; [reflexivity|]. split.
  - destruct (hd_error (filter (fun c => Sql.eqb (Sql.o_customerid o) (Sql.c_id c))
                               (Sql.Customer db))) as [c|] eqn:Ec.
    + right. exists c. apply hd_error_filter in Ec. simpl. tauto.
    + left. simpl. auto.
  - destruct (hd_error (filter (fun e => Sql.eqb (Sql.o_employeeid o) (Sql.e_id e))
                               (Sql.Employee db))) as [e|] eqn:Ee.
    + right. exists e. apply hd_error_filter in Ee. simpl. tauto.
    + left. simpl. auto.
Qed.

(** Order 2 of the sample: customer ["BONAP"], employee Andrew Fuller. *)
Lemma getOrder_row_witness :
  exists r,
    getOrder 2 sample_db = Some r /\
    r_id r = Sql.Int 2 /\
    r_customername r = Some "Laurence Lebihan" /\
    r_employeename r = Some "Andrew Fuller".
Proof.
  destruct (getOrder 2 sample_db) as [r|] eqn:E; [|discriminate E].
  exists r. split; [reflexivity|].
  destruct (getOrder_row_of_requested_order 2 sample_db r E) as [o [_ [_ [Hid _]]]].
  vm_compute in E. inversion E. repeat split.
Defined.

(** X19.  Whatever the tables hold, every row of [getOrderDetails]
    carries the id, unit price, quantity and discount of a line item of
    that order, with [price = unitprice * quantity]; every line item of
    the order has a row; and a line item whose product does not exist
    is listed all the same, with a [NULL] product name. *)
Theorem getOrderDetails_rows_of_the_order :
  forall id db,
    (forall r, In r (getOrderDetails id db) ->
               exists d, In d (line_items id db) /\
                         i_id r = Sql.d_id d /\
                         i_unitprice r = Sql.d_unitprice d /\
                         i_quantity r = Sql.d_quantity d /\
                         i_discount r = Sql.d_discount d /\
                         i_price r = (Sql.d_unitprice d * Sql.d_quantity d)%Q) /\
    (forall d, In d (line_items id db) ->
               exists r, In r (getOrderDetails id db) /\ i_id r = Sql.d_id d) /\
    (forall d, In d (line_items id db) ->
               product_of db d = None ->
               In (detail_record (d, None)) (getOrderDetails id db)).
Proof.
  intros id db. unfold getOrderDetails, line_items. split; [|split].
  - intros r Hr. apply in_map_iff in Hr. destruct Hr as [[d p] [<- Hr]].
    apply filter_In in Hr. destruct Hr as [Hj Hid]. simpl in Hid.
    apply left_join_In in Hj. destruct Hj as [Hd _].
    exists d. simpl. repeat split; auto. apply filter_In. auto.
  - intros d Hd. apply filter_In in Hd. destruct Hd as [Hd Hid].
    destruct (left_join_covers (fun o p => Sql.eqb (Sql.d_productid o) (Sql.p_id p))
                               (Sql.OrderDetail db) (Sql.Product db) d Hd) as [p Hp].
    exists (detail_record (d, p)). split; [|reflexivity].
    apply in_map. apply filter_In. auto.
  - intros d Hd Hnone. apply filter_In in Hd. destruct Hd as [Hd Hid].
    apply in_map. apply filter_In. split; auto.
    apply left_join_unmatched; auto.
    unfold product_of in Hnone.
    destruct (filter (fun p => Sql.eqb (Sql.d_productid d) (Sql.p_id p)) (Sql.Product db));
      [reflexivity|discriminate].
Qed.

(** The second line item of order 1 in the sample. *)
Lemma getOrderDetails_rows_witness :
  exists r, In r (getOrderDetails 1 sample_db) /\ i_id r = Sql.Text "1/2".
Proof.
  apply (proj1 (proj2 (getOrderDetails_rows_of_the_order 1 sample_db))
               (detail_row "1/2" 1 42 5 1 0)).
  right. left. reflexivity.
Defined.

(** X20.  When the header statement is refused (the header insert of
    [createOrder], the header update of [updateOrder]), no detail
    statement and no [COMMIT] is dispatched: the log is [BEGIN], the
    header statement and [ROLLBACK]. *)
Theorem header_rejected_no_details :
  forall (Conn : Type) (run : stmt -> Conn -> outcome (option RunResult) * Conn)
         c0 c1 (b : option RunResult),
    run (Run BEGIN []) c0 = (Resolved b, c1) ->
    (forall order details e c2,
        run (insert_order order) c1 = (Rejected e, c2) ->
        trace (createOrder run order details (c0, [])) =
          [Run BEGIN []; insert_order order; Run ROLLBACK []] /\
        result (createOrder run order details (c0, [])) =
          match fst (run (Run ROLLBACK []) c2) with
          | Resolved _ => Rejected e
          | Rejected e' => Rejected e'
          end) /\
    (forall id data details e c2,
        run (update_order id data) c1 = (Rejected e, c2) ->
        trace (updateOrder run id data details (c0, [])) =
          [Run BEGIN []; update_order id data; Run ROLLBACK []] /\
        result (updateOrder run id data details (c0, [])) =
          match fst (run (Run ROLLBACK []) c2) with
          | Resolved _ => Rejected e
          | Rejected e' => Rejected e'
          end).
Proof.
  intros Conn run c0 c1 b Hb. split.
  - intros order details e c2 Hh.
    pose proof (createOrder_try_header_rejected Conn run order details c1 c2
                  [Run BEGIN []] e Hh) as Hbody.
    unfold createOrder.
    rewrite (rollback_handler Conn run _ _ c0 c1 b e _ _ Hb Hbody).
    split; reflexivity.
  - intros id data details e c2 Hh.
    pose proof (updateOrder_try_header_rejected Conn run id data details c1 c2
                  [Run BEGIN []] e Hh) as Hbody.
    unfold updateOrder.
    rewrite (rollback_handler Conn run _ _ c0 c1 b e _ _ Hb Hbody).
    split; reflexivity.
Qed.

(** On a full disk, with two detail entries waiting: three statements. *)
Lemma header_rejected_witness :
  map text (trace (createOrder full_disk_run sample_order
                     [sample_detail (Js.number 11); sample_detail (Js.number 42)]
                     (tt, [])))
  = [BEGIN; INSERT_CustomerOrder; ROLLBACK].
Proof.
  rewrite (proj1 (proj1 (header_rejected_no_details unit full_disk_run tt tt None eq_refl)
                        sample_order
                        [sample_detail (Js.number 11); sample_detail (Js.number 42)]
                        SQLITE_FULL tt eq_refl)).
  reflexivity.
Defined.

(** X21.  [COMMIT] is inside the try block: when every statement
    before it is accepted and [COMMIT] itself is refused, [ROLLBACK] is
    dispatched after it and the caller receives the error of the
    [COMMIT] (or that of the [ROLLBACK], should it be refused too). *)
Theorem commit_rejected_rolls_back :
  forall (Conn : Type) (run : stmt -> Conn -> outcome (option RunResult) * Conn)
         c0 c1 (b : option RunResult),
    run (Run BEGIN []) c0 = (Resolved b, c1) ->
    (forall order details c2 c3 r e,
        run (insert_order order) c1 = (Resolved (Some r), c2) ->
        Js.truthy (lastID r) = true ->
        forallb is_resolved
                (fst (run_all run (detail_inserts (lastID r) 1 details) c2)) = true ->
        run (Run COMMIT [])
            (snd (run_all run (detail_inserts (lastID r) 1 details) c2))
        = (Rejected e, c3) ->
        trace (createOrder run order details (c0, [])) =
          [Run BEGIN []; insert_order order]
            ++ detail_inserts (lastID r) 1 details
            ++ [Run COMMIT []; Run ROLLBACK []] /\
        result (createOrder run order details (c0, [])) =
          match fst (run (Run ROLLBACK []) c3) with
          | Resolved _ => Rejected e
          | Rejected e' => Rejected e'
          end) /\
    (forall id data details c2 c3 (h : option RunResult) e,
        run (update_order id data) c1 = (Resolved h, c2) ->
        forallb is_resolved (fst (run_all run (map update_detail details) c2)) = true ->
        run (Run COMMIT []) (snd (run_all run (map update_detail details) c2))
        = (Rejected e, c3) ->
        trace (updateOrder run id data details (c0, [])) =
          [Run BEGIN []; update_order id data]
            ++ map update_detail details
            ++ [Run COMMIT []; Run ROLLBACK []] /\
        result (updateOrder run id data details (c0, [])) =
          match fst (run (Run ROLLBACK []) c3) with
          | Resolved _ => Rejected e
          | Rejected e' => Rejected e'
          end).
Proof.
  intros Conn run c0 c1 b Hb. split.
  - intros order details c2 c3 r e Hh Ht Hall Hc.
    destruct (Promise_all_resolved _ _ Hall) as [l Hl].
    pose proof (createOrder_try_commit_rejected Conn run order details c1 c2 c3
                  [Run BEGIN []] r l e Hh Ht Hl Hc) as Hbody.
    unfold createOrder.
    rewrite (rollback_handler Conn run _ _ c0 c1 b e _ _ Hb Hbody).
    unfold trace, result. simpl. split; [|reflexivity].
    rewrite <- !app_assoc. reflexivity.
  - intros id data details c2 c3 h e Hh Hall Hc.
    destruct (Promise_all_resolved _ _ Hall) as [l Hl].
    pose proof (updateOrder_try_commit_rejected Conn run id data details c1 c2 c3
                  [Run BEGIN []] h l e Hh Hl Hc) as Hbody.
    unfold updateOrder.
    rewrite (rollback_handler Conn run _ _ c0 c1 b e _ _ Hb Hbody).
    unfold trace, result. simpl. split; [|reflexivity].
    rewrite <- !app_assoc. reflexivity.
Qed.

(** One detail entry, [COMMIT] refused: the caller gets the error of
    the [COMMIT] after a [ROLLBACK]. *)
Lemma commit_rejected_witness :
  createOrder commit_refused_run sample_order [sample_detail (Js.number 11)] (tt, [])
  = (Rejected SQLITE_FULL,
     (tt, [Run BEGIN []; insert_order sample_order;
           insert_detail (Js.number 7) 1 (sample_detail (Js.number 11));
           Run COMMIT []; Run ROLLBACK []])).
Proof.
  pose proof (proj1 (commit_rejected_rolls_back unit commit_refused_run tt tt _ eq_refl)
                    sample_order [sample_detail (Js.number 11)] tt tt
                    {| lastID := Js.number 7 |} SQLITE_FULL
                    eq_refl eq_refl eq_refl eq_refl) as [_ _].
  reflexivity.
Defined.
